(** * Rate limiting strategies over the MongoDB storage

    A shallow embedding of [limits/storage/base.py], [limits/storage/mongodb.py]
    and [limits/aio/strategies.py].

    Time.  Every clock the code reads ([time.time()], [datetime.utcnow()] and
    the server's [$$NOW]) is one clock, an integer number of microseconds
    since the epoch; each operation receives the reading [now] it makes.
    Durations given in seconds are scaled by [Clock.usec]; the two places
    where the code cuts a time down to whole seconds ([int(...)] and
    [calendar.timegm(d.timetuple())]) are kept as such.

    State.  The two collections [counters] and [windows] are finite maps from
    the document [_id] to the document; every operation is a function from
    the storage to a result and the storage after the call. *)

From Stdlib Require Import ZArith Lia Sorted.
From stdpp Require Import gmap strings list sorting.

Local Open Scope Z_scope.

(** ** A small state monad for code that makes several storage calls *)

Module Eff.
Definition M (St A : Type) : Type := St -> A * St.

Definition ret {St A} (a : A) : M St A := fun s => (a, s).

Definition bind {St A B} (m : M St A) (k : A -> M St B) : M St B :=
  fun s => let '(a, s') := m s in k a s'.
End Eff.

Notation "'await' x <- m ;; k" := (Eff.bind m (fun x => k))
  (at level 10, x name, m at level 99, k at level 200).

(** ** Clock arithmetic *)

Module Clock.
Definition usec : Z := 1000000.

(** [datetime.timedelta(seconds=n)], and [n] seconds on the float clock. *)
Definition seconds (n : Z) : Z := n * usec.

(** [calendar.timegm(d.timetuple())]: the time tuple has no sub-second
    field, so the result is the whole second at or before [d]. *)
Definition timegm (d : Z) : Z := d / usec.

(** [int(x)] on a float number of seconds: truncation towards zero. *)
Definition int (x : Z) : Z := Z.quot x usec.
End Clock.

(** ** Documents *)

Module Counter.
Record doc : Type := mk { count : Z; expireAt : Z }.
End Counter.

Module Window.
Record doc : Type := mk { entries : list Z; expireAt : Z }.
End Window.

(** ** The storage contract ([limits/storage/base.py])

    [check] probes the connection to the server, which is not part of the
    state kept here, and is left out. *)

Class Storage (St : Type) : Type := {
  incr : Z -> string -> Z -> bool -> Eff.M St Z;
  get : Z -> string -> Eff.M St Z;
  get_expiry : Z -> string -> Eff.M St Z;
  reset : Eff.M St Z;
  clear : string -> Eff.M St unit
}.

Class MovingWindowSupport (St : Type) : Type := {
  acquire_entry : Z -> string -> Z -> Z -> Eff.M St bool;
  get_moving_window : Z -> string -> Z -> Z -> Eff.M St (Z * Z)
}.

(** ** [RateLimitItem]

    The class is imported from the package root, which is not part of these
    sources.  The strategies use an item only through [item.amount],
    [item.get_expiry()] and [item.key_for] applied to the identifiers, so an
    item is the record of these three. *)

Module RateLimitItem.
Record t : Type := mk {
  amount : Z;
  get_expiry : Z;
  key_for : list string -> string
}.
End RateLimitItem.

(** ** [MongoDBStorage] ([limits/storage/mongodb.py]) *)

Module MongoDBStorage.

Record t : Type := mk {
  counters : gmap string Counter.doc;
  windows : gmap string Window.doc
}.

Definition empty : t := mk ∅ ∅.

(** [reset]: count the documents of both collections, then drop both. *)
Definition reset : Eff.M t Z := fun s =>
  let num_keys := Z.of_nat (size (counters s)) + Z.of_nat (size (windows s)) in
  (num_keys, mk ∅ ∅).

(** [clear]: [find_one_and_delete] on each collection; deleting an absent
    [_id] finds nothing and deletes nothing. *)
Definition clear (key : string) : Eff.M t unit := fun s =>
  (tt, mk (delete key (counters s)) (delete key (windows s))).

(** [get_expiry]: [find_one({"_id": key})] has no condition on [expireAt]. *)
Definition get_expiry (now : Z) (key : string) : Eff.M t Z := fun s =>
  let counter := counters s !! key in
  let expiry :=
    match counter with
    | Some c => Counter.expireAt c
    | None => now
    end in
  (Clock.timegm expiry, s).

(** [find_one({"_id": key, "expireAt": {"$gte": utcnow()}})]. *)
Definition find_unexpired (now : Z) (key : string) (s : t) : option Counter.doc :=
  match counters s !! key with
  | Some c => if now <=? Counter.expireAt c then Some c else None
  | None => None
  end.

(** [get]: [counter and counter["count"] or 0]. *)
Definition get (now : Z) (key : string) : Eff.M t Z := fun s =>
  let counter := find_unexpired now key s in
  (match counter with
   | Some c => if Counter.count c =? 0 then 0 else Counter.count c
   | None => 0
   end, s).

(** The [$set] stage of [incr], on the document matched by [_id].  With
    [upsert=True] an absent document is first inserted holding only its
    [_id]; its missing [expireAt] orders below every date, so the
    condition [$lt: ["$expireAt", "$$NOW"]] is true for it. *)
Definition incr_pipeline (now expiration : Z) (elastic_expiry : bool)
    (found : option Counter.doc) : Counter.doc :=
  match found with
  | None => Counter.mk 1 expiration
  | Some c =>
      Counter.mk
        (if Counter.expireAt c <? now then 1 else Counter.count c + 1)
        (if Counter.expireAt c <? now then expiration
         else if elastic_expiry then expiration else Counter.expireAt c)
  end.

(** [incr]: one [find_one_and_update] returning the document AFTER the
    update, projected on [count]. *)
Definition incr (now : Z) (key : string) (expiry : Z) (elastic_expiry : bool)
    : Eff.M t Z := fun s =>
  let expiration := now + Clock.seconds expiry in
  let after := incr_pipeline now expiration elastic_expiry (counters s !! key) in
  (Counter.count after, mk (<[key := after]> (counters s)) (windows s)).

(** *** The aggregation pipeline of [get_moving_window] *)

(** [{"$match": {"_id": key}}] *)
Definition stage_match (key : string) (s : t) : list (string * Window.doc) :=
  match windows s !! key with
  | Some d => [(key, d)]
  | None => []
  end.

(** [$project] with [$filter]: keep the entries [>= timestamp - expiry]. *)
Definition stage_project (lower : Z) (docs : list (string * Window.doc))
    : list (string * list Z) :=
  map (fun kd => (fst kd, filter (fun entry => lower <= entry) (Window.entries (snd kd))))
      docs.

(** [{"$unwind": "$entries"}]: one document per array element, none for
    an empty array. *)
Definition stage_unwind (docs : list (string * list Z)) : list (string * Z) :=
  concat (map (fun kd => map (fun e => (fst kd, e)) (snd kd)) docs).

(** One step of [$group] by [_id] with accumulators [$max] and [$sum: 1]. *)
Fixpoint group_add (k : string) (e : Z) (acc : list (string * (Z * Z)))
    : list (string * (Z * Z)) :=
  match acc with
  | [] => [(k, (e, 1))]
  | (k', (m, c)) :: acc' =>
      if decide (k = k') then (k', (Z.max m e, c + 1)) :: acc'
      else (k', (m, c)) :: group_add k e acc'
  end.

Definition stage_group (docs : list (string * Z)) : list (string * (Z * Z)) :=
  foldl (fun acc ke => group_add (fst ke) (snd ke) acc) [] docs.

Definition aggregate (lower : Z) (key : string) (s : t) : list (string * (Z * Z)) :=
  stage_group (stage_unwind (stage_project lower (stage_match key s))).

(** [get_moving_window]: the [limit] argument is not used. *)
Definition get_moving_window (now : Z) (key : string) (limit expiry : Z)
    : Eff.M t (Z * Z) := fun s =>
  let timestamp := now in
  let result := aggregate (timestamp - Clock.seconds expiry) key s in
  match result with
  | (_, (max, count)) :: _ => ((Clock.int max, count), s)
  | [] => ((Clock.int timestamp, 0), s)
  end.

(** *** The conditional update of [acquire_entry] *)

Inductive DuplicateKeyError : Type := duplicate_key_error.

(** The array element addressed by the path ["entries.%d" % i].  A negative
    [i] is no array index, and the numbers stored in [entries] have no
    field of that name, so the path is then missing. *)
Definition entries_at (i : Z) (es : list Z) : option Z :=
  if 0 <=? i then es !! Z.to_nat i else None.

(** [{"$not": {"$gte": lower}}] on that path: a missing element matches. *)
Definition not_gte (lower : Z) (field : option Z) : bool :=
  match field with
  | Some e => negb (lower <=? e)
  | None => true
  end.

(** [$slice: n] of [$push]: the first [n] elements; for a negative [n] the
    last [-n]. *)
Definition slice (n : Z) (es : list Z) : list Z :=
  if 0 <=? n then take (Z.to_nat n) es
  else drop (length es - Z.to_nat (- n))%nat es.

(** [$push] with [$each: [x]], [$position: 0], [$slice: n]. *)
Definition push_front (x : Z) (n : Z) (es : list Z) : list Z :=
  slice n (x :: es).

(** [windows.update_one(filter, updates, upsert=True)].  When the document
    with this [_id] exists but fails the condition on [entries.(limit-1)],
    the upsert tries to insert a second document with the same [_id] and
    the server answers with a duplicate key error, storing nothing. *)
Definition update_one (key : string) (limit lower timestamp expireAt : Z) (s : t)
    : DuplicateKeyError + t :=
  match windows s !! key with
  | Some d =>
      if not_gte lower (entries_at (limit - 1) (Window.entries d))
      then inr (mk (counters s)
                   (<[key := Window.mk (push_front timestamp limit (Window.entries d))
                                       expireAt]> (windows s)))
      else inl duplicate_key_error
  | None =>
      inr (mk (counters s)
              (<[key := Window.mk (push_front timestamp limit []) expireAt]> (windows s)))
  end.

Definition acquire_entry (now : Z) (key : string) (limit expiry : Z)
    : Eff.M t bool := fun s =>
  let timestamp := now in
  match update_one key limit (timestamp - Clock.seconds expiry) timestamp
                   (now + Clock.seconds expiry) s with
  | inr s' => (true, s')
  | inl duplicate_key_error => (false, s)
  end.

(** *** The TTL indexes created by [__initialize_database]

    With [expireAfterSeconds=0] the server's background task may delete a
    document once its [expireAt] has been reached; when it does so is not
    under the program's control, so the deletion of one expired document
    is a step of its own. *)
Definition ttl_delete_counter (now : Z) (key : string) (s : t) : t :=
  match counters s !! key with
  | Some c =>
      if Counter.expireAt c <=? now then mk (delete key (counters s)) (windows s) else s
  | None => s
  end.

Definition ttl_delete_window (now : Z) (key : string) (s : t) : t :=
  match windows s !! key with
  | Some d =>
      if Window.expireAt d <=? now then mk (counters s) (delete key (windows s)) else s
  | None => s
  end.

End MongoDBStorage.

#[export] Instance MongoDBStorage_Storage : Storage MongoDBStorage.t := {
  incr := MongoDBStorage.incr;
  get := MongoDBStorage.get;
  get_expiry := MongoDBStorage.get_expiry;
  reset := MongoDBStorage.reset;
  clear := MongoDBStorage.clear
}.

#[export] Instance MongoDBStorage_MovingWindowSupport
  : MovingWindowSupport MongoDBStorage.t := {
  acquire_entry := MongoDBStorage.acquire_entry;
  get_moving_window := MongoDBStorage.get_moving_window
}.

(** ** Python objects probed with [hasattr] *)

Module PyObject.
Record t : Type := mk {
  class_name : string;
  attributes : gset string
}.

Definition hasattr (o : t) (name : string) : bool :=
  bool_decide (name ∈ attributes o).
End PyObject.

(** ** The strategies ([limits/aio/strategies.py])

    The strategies are written against the storage contract, so they are
    defined over any instance of it. *)

Module RateLimiter.
Section WithStorage.
Context {St : Type} `{!Storage St}.

Definition clear (item : RateLimitItem.t) (identifiers : list string)
    : Eff.M St unit :=
  clear (RateLimitItem.key_for item identifiers).
End WithStorage.
End RateLimiter.

Module MovingWindowRateLimiter.

Inductive NotImplementedError : Type :=
  not_implemented (message : string) (storage_class : string).

(** [__init__]: the guard on the storage object; on success the limiter
    holds the storage it was given. *)
Definition init (storage : PyObject.t) : NotImplementedError + PyObject.t :=
  if negb (PyObject.hasattr storage "acquire_entry"
           || PyObject.hasattr storage "get_moving_window")
  then inl (not_implemented
              "MovingWindowRateLimiting is not implemented for storage of type "
              (PyObject.class_name storage))
  else inr storage.

Section WithStorage.
Context {St : Type} `{!Storage St} `{!MovingWindowSupport St}.

Definition hit (now : Z) (item : RateLimitItem.t) (identifiers : list string)
    : Eff.M St bool :=
  acquire_entry now (RateLimitItem.key_for item identifiers)
                (RateLimitItem.amount item) (RateLimitItem.get_expiry item).

Definition test (now : Z) (item : RateLimitItem.t) (identifiers : list string)
    : Eff.M St bool :=
  await res <- get_moving_window now (RateLimitItem.key_for item identifiers)
                 (RateLimitItem.amount item) (RateLimitItem.get_expiry item) ;;
  let amount := snd res in
  Eff.ret (amount <? RateLimitItem.amount item).

Definition get_window_stats (now : Z) (item : RateLimitItem.t)
    (identifiers : list string) : Eff.M St (Z * Z) :=
  await res <-
    get_moving_window now (RateLimitItem.key_for item identifiers)
      (RateLimitItem.amount item) (RateLimitItem.get_expiry item) ;;
  let '(window_start, window_items) := res in
  let reset := window_start + RateLimitItem.get_expiry item in
  Eff.ret (reset, RateLimitItem.amount item - window_items).

Definition clear := RateLimiter.clear (St := St).
End WithStorage.
End MovingWindowRateLimiter.

Module FixedWindowRateLimiter.
Section WithStorage.
Context {St : Type} `{!Storage St}.

(** [incr] is called without its third argument, which defaults to
    [False]. *)
Definition hit (now : Z) (item : RateLimitItem.t) (identifiers : list string)
    : Eff.M St bool :=
  await count <- incr now (RateLimitItem.key_for item identifiers)
                   (RateLimitItem.get_expiry item) false ;;
  Eff.ret (count <=? RateLimitItem.amount item).

Definition test (now : Z) (item : RateLimitItem.t) (identifiers : list string)
    : Eff.M St bool :=
  await count <- get now (RateLimitItem.key_for item identifiers) ;;
  Eff.ret (count <? RateLimitItem.amount item).

Definition get_window_stats (now : Z) (item : RateLimitItem.t)
    (identifiers : list string) : Eff.M St (Z * Z) :=
  await count <- get now (RateLimitItem.key_for item identifiers) ;;
  let remaining := Z.max 0 (RateLimitItem.amount item - count) in
  await reset <- get_expiry now (RateLimitItem.key_for item identifiers) ;;
  Eff.ret (reset, remaining).

Definition clear := RateLimiter.clear (St := St).
End WithStorage.
End FixedWindowRateLimiter.

Module FixedWindowElasticExpiryRateLimiter.
Section WithStorage.
Context {St : Type} `{!Storage St}.

Definition hit (now : Z) (item : RateLimitItem.t) (identifiers : list string)
    : Eff.M St bool :=
  await amount <- incr now (RateLimitItem.key_for item identifiers)
                    (RateLimitItem.get_expiry item) true ;;
  Eff.ret (amount <=? RateLimitItem.amount item).

(** Inherited from [FixedWindowRateLimiter]. *)
Definition test := FixedWindowRateLimiter.test (St := St).
Definition get_window_stats := FixedWindowRateLimiter.get_window_stats (St := St).
Definition clear := RateLimiter.clear (St := St).
End WithStorage.
End FixedWindowElasticExpiryRateLimiter.

(** ** Running one call several times *)

(** [n] calls of [m] in a row; the results in call order and the storage
    after the last call. *)
Fixpoint repeat_call {St A} (n : nat) (m : Eff.M St A) : Eff.M St (list A) :=
  match n with
  | O => Eff.ret []
  | S n' => await a <- m ;; await rest <- repeat_call n' m ;; Eff.ret (a :: rest)
  end.

(** ** Vocabulary of the properties *)

(** The timestamps stored for [key]; none when there is no record. *)
Definition stored_entries (key : string) (s : MongoDBStorage.t) : list Z :=
  match MongoDBStorage.windows s !! key with
  | Some d => Window.entries d
  | None => []
  end.

(** The entries inside the trailing window of [expiry] seconds ending at
    [now]: those with timestamp [>= now - expiry]. *)
Definition in_window (now expiry : Z) (es : list Z) : list Z :=
  filter (fun e => now - Clock.seconds expiry <= e) es.

Definition window_count (now : Z) (key : string) (expiry : Z)
    (s : MongoDBStorage.t) : Z :=
  Z.of_nat (length (in_window now expiry (stored_entries key s))).

(** The oldest and the newest of a list of timestamps. *)
Definition oldest (es : list Z) : option Z :=
  match es with
  | [] => None
  | e :: es' => Some (foldr Z.min e es')
  end.

Definition newest (es : list Z) : option Z :=
  match es with
  | [] => None
  | e :: es' => Some (foldr Z.max e es')
  end.

(** Newest first: every entry is at least as recent as those after it. *)
Definition descending (es : list Z) : Prop :=
  StronglySorted (fun a b => b <= a) es.

(** The invariant of the [windows] collection at clock reading [now]. *)
Definition window_inv (now : Z) (d : Window.doc) : Prop :=
  descending (Window.entries d) /\ Forall (fun e => e <= now) (Window.entries d).

Definition windows_inv (now : Z) (s : MongoDBStorage.t) : Prop :=
  forall k d, MongoDBStorage.windows s !! k = Some d -> window_inv now d.

(** The storages the program can be in at clock reading [now]: from the
    empty database, any sequence of mutating calls and TTL deletions, while
    the clock never runs backwards.  The reading calls leave the storage as
    it is and add nothing to the relation. *)
Inductive reachable : Z -> MongoDBStorage.t -> Prop :=
| reach_empty now :
    reachable now MongoDBStorage.empty
| reach_wait now now' s :
    reachable now s -> now <= now' -> reachable now' s
| reach_incr now key expiry elastic s :
    reachable now s ->
    reachable now (snd (MongoDBStorage.incr now key expiry elastic s))
| reach_acquire_entry now key limit expiry s :
    reachable now s ->
    reachable now (snd (MongoDBStorage.acquire_entry now key limit expiry s))
| reach_clear now key s :
    reachable now s -> reachable now (snd (MongoDBStorage.clear key s))
| reach_reset now s :
    reachable now s -> reachable now (snd (MongoDBStorage.reset s))
| reach_ttl_counter now key s :
    reachable now s -> reachable now (MongoDBStorage.ttl_delete_counter now key s)
| reach_ttl_window now key s :
    reachable now s -> reachable now (MongoDBStorage.ttl_delete_window now key s).

(** [acquire_entry] called once per clock reading of [times], in order. *)
Definition acquire_entries (key : string) (limit expiry : Z) (times : list Z)
    (s : MongoDBStorage.t) : MongoDBStorage.t :=
  foldl (fun s now => snd (MongoDBStorage.acquire_entry now key limit expiry s)) s times.

(** The length bound on the record of [key], when there is one. *)
Definition bounded (key : string) (limit : Z) (s : MongoDBStorage.t) : Prop :=
  Z.of_nat (length (stored_entries key s)) <= limit.

(** The answers of [n] fixed window hits in a row on an unexpired counter
    holding [c], for a limit of [amount]. *)
Fixpoint answers (amount : Z) (n : nat) (c : Z) : list bool :=
  match n with
  | O => []
  | S n' => (c + 1 <=? amount) :: answers amount n' (c + 1)
  end.

(** ** Samples *)

Module Sample.
Definition key_for (identifiers : list string) : string :=
  String.concat "/" ("LIMITER" :: identifiers).

(** Ten per minute. *)
Definition per_minute : RateLimitItem.t := RateLimitItem.mk 10 60 key_for.

(** Two per minute. *)
Definition two_per_minute : RateLimitItem.t := RateLimitItem.mk 2 60 key_for.

Definition T (n : Z) : Z := Clock.seconds n.

(** Two admitted entries, at 10 s and at 20 s. *)
Definition two_hits : MongoDBStorage.t :=
  acquire_entries "k" 2 60 [T 10; T 20] MongoDBStorage.empty.

(** A record whose clock ran backwards between the two calls. *)
Definition backwards : MongoDBStorage.t :=
  acquire_entries "k" 2 60 [T 100; T 5] MongoDBStorage.empty.

(** A counter exhausted at 0 s with a two second window. *)
Definition exhausted : MongoDBStorage.t :=
  MongoDBStorage.mk {[ "k" := Counter.mk 10 (T 2) ]} ∅.

(** One elastic hit at 0 s on the empty database. *)
Definition hit_once : MongoDBStorage.t :=
  snd (FixedWindowElasticExpiryRateLimiter.hit (T 0) two_per_minute []
         MongoDBStorage.empty).

Definition only_acquire_entry : PyObject.t :=
  PyObject.mk "HalfStorage" {[ "acquire_entry" ]}.
End Sample.

(** ** Calls at successive clock readings *)

(** One call per clock reading of [times], in order; the results in call
    order and the storage after the last call. *)
Fixpoint calls_at {St A} (call : Z -> Eff.M St A) (times : list Z)
    : Eff.M St (list A) :=
  match times with
  | [] => Eff.ret []
  | t :: ts =>
      await a <- call t ;; await rest <- calls_at call ts ;; Eff.ret (a :: rest)
  end.

(** The clock readings of the calls that were answered with true. *)
Fixpoint admitted (times : list Z) (results : list bool) : list Z :=
  match times, results with
  | t :: ts, true :: bs => t :: admitted ts bs
  | _ :: ts, false :: bs => admitted ts bs
  | _, _ => []
  end.

(** Every call comes no later than [deadline], which each call moves to
    [expiry] seconds after itself. *)
Fixpoint chained (expiry deadline : Z) (times : list Z) : Prop :=
  match times with
  | [] => True
  | t :: ts => t <= deadline /\ chained expiry (t + Clock.seconds expiry) ts
  end.

(** The clock reading of the last call of a run that started at [t]. *)
Definition last_reading (t : Z) (times : list Z) : Z := List.last times t.

(** The record of [key] against the log of the admitted clock readings,
    newest first: the record holds the first [limit] of them, the log is in
    order and not ahead of the clock, and at most [limit] of its readings
    lie inside the trailing window. *)
Definition log_inv (key : string) (limit expiry now : Z)
    (s : MongoDBStorage.t) (log : list Z) : Prop :=
  stored_entries key s = take (Z.to_nat limit) log /\
  descending log /\
  Forall (fun e => e <= now) log /\
  Z.of_nat (length (in_window now expiry log)) <= limit.

(** ** The client options of [MongoDBStorage.__init__] *)

Module PyValue.
Inductive t : Type :=
| int (n : Z)
| str (s : string)
| bool (b : Datatypes.bool).
End PyValue.

Module MongoClientOptions.

Definition DEFAULT_OPTIONS : list (string * PyValue.t) :=
  [("serverSelectionTimeoutMS", PyValue.int 1000);
   ("socketTimeoutMS", PyValue.int 1000);
   ("connectTimeoutMS", PyValue.int 1000)].

(** [dict.setdefault(k, v)]: writes only when [k] is not yet a key. *)
Definition setdefault (k : string) (v : PyValue.t)
    (d : gmap string PyValue.t) : gmap string PyValue.t :=
  match d !! k with
  | Some _ => d
  | None => <[k := v]> d
  end.

(** [mongo_opts = options.copy()], then [setdefault] for every item of
    [DEFAULT_OPTIONS], in order. *)
Definition mongo_opts (options : gmap string PyValue.t) : gmap string PyValue.t :=
  foldl (fun d kv => setdefault (fst kv) (snd kv) d) options DEFAULT_OPTIONS.

End MongoClientOptions.

(** * Properties *)

(** ** Clock *)

Lemma usec_pos : 0 < Clock.usec.
Proof. reflexivity. Qed.

Lemma timegm_plus_seconds t n :
  Clock.timegm (t + Clock.seconds n) = Clock.timegm t + n.
Proof. unfold Clock.timegm, Clock.seconds. apply Z.div_add. discriminate. Qed.

Lemma timegm_le t : Clock.seconds (Clock.timegm t) <= t.
Proof.
  unfold Clock.timegm, Clock.seconds. rewrite Z.mul_comm.
  apply Z.mul_div_le. exact usec_pos.
Qed.

Lemma timegm_mono t t' : t <= t' -> Clock.timegm t <= Clock.timegm t'.
Proof. intros H. apply Z.div_le_mono; [exact usec_pos | exact H]. Qed.

(** ** The state monad *)

Lemma bind_run {St A B} (m : Eff.M St A) (k : A -> Eff.M St B) (s : St) :
  Eff.bind m k s = k (fst (m s)) (snd (m s)).
Proof. unfold Eff.bind. destruct (m s); reflexivity. Qed.

(** ** Counters *)

Section Counters.
Import MongoDBStorage.

Lemma get_read_only now key s : snd (get now key s) = s.
Proof. reflexivity. Qed.

Lemma get_expiry_read_only now key s : snd (get_expiry now key s) = s.
Proof. reflexivity. Qed.

Lemma get_moving_window_read_only now key limit expiry s :
  snd (get_moving_window now key limit expiry s) = s.
Proof.
  unfold get_moving_window.
  destruct (aggregate _ key s) as [|[? [? ?]] ?]; reflexivity.
Qed.

Lemma get_absent now key s : counters s !! key = None -> fst (get now key s) = 0.
Proof. intros H. unfold get, find_unexpired. rewrite H. reflexivity. Qed.

Lemma get_expired now key c s :
  counters s !! key = Some c -> Counter.expireAt c < now -> fst (get now key s) = 0.
Proof.
  intros H Hlt. unfold get, find_unexpired. rewrite H.
  destruct (Z.leb_spec now (Counter.expireAt c)); [lia | reflexivity].
Qed.

Lemma get_unexpired now key c s :
  counters s !! key = Some c -> now <= Counter.expireAt c ->
  fst (get now key s) = Counter.count c.
Proof.
  intros H Hle. unfold get, find_unexpired. rewrite H.
  destruct (Z.leb_spec now (Counter.expireAt c)); [|lia]. simpl.
  destruct (Z.eqb_spec (Counter.count c) 0); congruence.
Qed.

Lemma incr_lookup now key expiry elastic s :
  counters (snd (incr now key expiry elastic s)) !! key =
  Some (incr_pipeline now (now + Clock.seconds expiry) elastic (counters s !! key)).
Proof. unfold incr. simpl. apply lookup_insert_eq. Qed.

Lemma incr_result now key expiry elastic s :
  fst (incr now key expiry elastic s) =
  Counter.count (incr_pipeline now (now + Clock.seconds expiry) elastic (counters s !! key)).
Proof. reflexivity. Qed.

Lemma incr_frame now key expiry elastic s :
  windows (snd (incr now key expiry elastic s)) = windows s /\
  forall k, k <> key ->
    counters (snd (incr now key expiry elastic s)) !! k = counters s !! k.
Proof.
  split; [reflexivity|]. intros k Hk. unfold incr. simpl.
  apply lookup_insert_ne. congruence.
Qed.

Lemma incr_pipeline_fresh now expiration elastic found :
  found = None \/ (exists c, found = Some c /\ Counter.expireAt c < now) ->
  incr_pipeline now expiration elastic found = Counter.mk 1 expiration.
Proof.
  intros [-> | (c & -> & Hlt)]; [reflexivity|]. unfold incr_pipeline.
  destruct (Z.ltb_spec (Counter.expireAt c) now); [reflexivity | lia].
Qed.

Lemma incr_pipeline_live now expiration elastic c :
  now <= Counter.expireAt c ->
  incr_pipeline now expiration elastic (Some c) =
  Counter.mk (Counter.count c + 1)
             (if elastic then expiration else Counter.expireAt c).
Proof.
  intros Hle. unfold incr_pipeline.
  destruct (Z.ltb_spec (Counter.expireAt c) now); [lia | reflexivity].
Qed.
End Counters.

(** C3. [incr] returns the count it stores; without a record, or with one
    whose [expireAt] is before [now], the record becomes
    [{count: 1, expireAt: now + expiry}]; with an unexpired record the count
    grows by one and [expireAt] becomes [now + expiry] when [elastic] is
    true and is left as it was otherwise.  Nothing else is written. *)
Theorem incr_creates_or_increments now key expiry elastic s :
  let r := MongoDBStorage.incr now key expiry elastic s in
  let stored := MongoDBStorage.counters (snd r) !! key in
  (exists c', stored = Some c' /\ fst r = Counter.count c') /\
  (MongoDBStorage.counters s !! key = None \/
   (exists c, MongoDBStorage.counters s !! key = Some c /\ Counter.expireAt c < now) ->
   stored = Some (Counter.mk 1 (now + Clock.seconds expiry)) /\ fst r = 1) /\
  (forall c, MongoDBStorage.counters s !! key = Some c -> now <= Counter.expireAt c ->
   stored = Some (Counter.mk (Counter.count c + 1)
                    (if elastic then now + Clock.seconds expiry else Counter.expireAt c)) /\
   fst r = Counter.count c + 1) /\
  MongoDBStorage.windows (snd r) = MongoDBStorage.windows s /\
  (forall k, k <> key ->
     MongoDBStorage.counters (snd r) !! k = MongoDBStorage.counters s !! k).
Proof.
  intros r stored. subst r stored.
  rewrite incr_lookup, incr_result.
  split; [eexists; split; reflexivity|].
  split.
  { intros H. rewrite (incr_pipeline_fresh _ _ _ _ H). split; reflexivity. }
  split.
  { intros c Hc Hle. rewrite Hc, (incr_pipeline_live _ _ _ _ Hle). split; reflexivity. }
  apply incr_frame.
Qed.

Lemma incr_creates_or_increments_witness :
  fst (MongoDBStorage.incr (Sample.T 1) "k" 2 false Sample.exhausted) = 10 + 1.
Proof.
  pose proof (incr_creates_or_increments (Sample.T 1) "k" 2 false Sample.exhausted)
    as (_ & _ & Hlive & _).
  apply (Hlive (Counter.mk 10 (Sample.T 2))); [reflexivity | vm_compute; discriminate].
Defined.

(** ** Calls in a row *)

Lemma repeat_call_S {St A} (n : nat) (m : Eff.M St A) (s : St) :
  fst (repeat_call (S n) m s) = fst (m s) :: fst (repeat_call n m (snd (m s))).
Proof.
  simpl repeat_call. rewrite bind_run, bind_run. reflexivity.
Qed.

(** ** Fixed window *)

Section FixedWindow.
Variables (now : Z) (item : RateLimitItem.t) (identifiers : list string).

Let key := RateLimitItem.key_for item identifiers.
Let amount := RateLimitItem.amount item.
Let expiry := RateLimitItem.get_expiry item.

Lemma fixed_hit_unfold (s : MongoDBStorage.t) :
  FixedWindowRateLimiter.hit now item identifiers s =
  (fst (MongoDBStorage.incr now key expiry false s) <=? amount,
   snd (MongoDBStorage.incr now key expiry false s)).
Proof. reflexivity. Qed.

Lemma elastic_hit_unfold (s : MongoDBStorage.t) :
  FixedWindowElasticExpiryRateLimiter.hit now item identifiers s =
  (fst (MongoDBStorage.incr now key expiry true s) <=? amount,
   snd (MongoDBStorage.incr now key expiry true s)).
Proof. reflexivity. Qed.

Lemma fixed_test_unfold (s : MongoDBStorage.t) :
  FixedWindowRateLimiter.test now item identifiers s =
  (fst (MongoDBStorage.get now key s) <? amount, s).
Proof. reflexivity. Qed.

Lemma fixed_stats_unfold (s : MongoDBStorage.t) :
  FixedWindowRateLimiter.get_window_stats now item identifiers s =
  ((fst (MongoDBStorage.get_expiry now key s),
    Z.max 0 (amount - fst (MongoDBStorage.get now key s))), s).
Proof. reflexivity. Qed.

Lemma answers_admitted n c :
  c + Z.of_nat n <= amount -> answers amount n c = replicate n true.
Proof.
  revert c. induction n as [|n IH]; intros c Hle; [reflexivity|].
  simpl. rewrite IH by lia.
  destruct (Z.leb_spec (c + 1) amount); [reflexivity | lia].
Qed.

Lemma answers_app n m c :
  answers amount (n + m) c = answers amount n c ++ answers amount m (c + Z.of_nat n).
Proof.
  revert c. induction n as [|n IH]; intros c.
  - simpl. rewrite Z.add_0_r. reflexivity.
  - simpl. rewrite IH. do 3 f_equal. lia.
Qed.

Lemma hits_on_live_record n (s : MongoDBStorage.t) c :
  0 <= expiry ->
  MongoDBStorage.counters s !! key = Some c ->
  now <= Counter.expireAt c ->
  fst (repeat_call n (FixedWindowRateLimiter.hit now item identifiers) s) =
  answers amount n (Counter.count c).
Proof.
  intros He. revert s c. induction n as [|n IH]; intros s c Hc Hlive; [reflexivity|].
  rewrite repeat_call_S, fixed_hit_unfold. cbn [fst snd answers].
  rewrite incr_result, Hc, (incr_pipeline_live _ _ _ _ Hlive).
  cbn [Counter.count]. f_equal.
  rewrite (IH _ (Counter.mk (Counter.count c + 1) (Counter.expireAt c))).
  - reflexivity.
  - rewrite incr_lookup, Hc, (incr_pipeline_live _ _ _ _ Hlive). reflexivity.
  - exact Hlive.
Qed.

Lemma hits_on_absent_record n (s : MongoDBStorage.t) :
  0 <= expiry ->
  MongoDBStorage.counters s !! key = None ->
  fst (repeat_call n (FixedWindowRateLimiter.hit now item identifiers) s) =
  answers amount n 0.
Proof.
  intros He Hnone. destruct n as [|n]; [reflexivity|].
  rewrite repeat_call_S, fixed_hit_unfold. cbn [fst snd answers].
  rewrite incr_result, Hnone. cbn [MongoDBStorage.incr_pipeline Counter.count].
  f_equal.
  rewrite (hits_on_live_record _ _
             (Counter.mk 1 (now + Clock.seconds expiry))).
  - reflexivity.
  - exact He.
  - rewrite incr_lookup, Hnone. reflexivity.
  - simpl. unfold Clock.seconds. pose proof usec_pos. nia.
Qed.
End FixedWindow.

(** C5. From a storage without a record for the item's key and with the
    clock standing still, the first [amount] hits of the fixed window
    limiter return true and the next one returns false; a hit is admitted
    exactly when the count [incr] returns, called with [elastic = false], is
    at most [amount]. *)
Theorem fixed_window_admits_exactly_amount now item identifiers (s : MongoDBStorage.t) :
  0 < RateLimitItem.amount item ->
  0 < RateLimitItem.get_expiry item ->
  MongoDBStorage.counters s !! RateLimitItem.key_for item identifiers = None ->
  fst (repeat_call (Z.to_nat (RateLimitItem.amount item) + 1)
         (FixedWindowRateLimiter.hit now item identifiers) s) =
  replicate (Z.to_nat (RateLimitItem.amount item)) true ++ [false] /\
  forall s' : MongoDBStorage.t,
    FixedWindowRateLimiter.hit now item identifiers s' =
    (fst (MongoDBStorage.incr now (RateLimitItem.key_for item identifiers)
            (RateLimitItem.get_expiry item) false s')
       <=? RateLimitItem.amount item,
     snd (MongoDBStorage.incr now (RateLimitItem.key_for item identifiers)
            (RateLimitItem.get_expiry item) false s')).
Proof.
  intros Ha He Hnone. split; [|intros s'; apply fixed_hit_unfold].
  rewrite hits_on_absent_record by (lia || assumption).
  rewrite answers_app, answers_admitted by lia.
  f_equal. simpl.
  destruct (Z.leb_spec (0 + Z.of_nat (Z.to_nat (RateLimitItem.amount item)) + 1)
              (RateLimitItem.amount item)); [lia | reflexivity].
Qed.

Lemma fixed_window_admits_exactly_amount_witness :
  fst (repeat_call 3 (FixedWindowRateLimiter.hit (Sample.T 7) Sample.two_per_minute ["a"])
         MongoDBStorage.empty) = [true; true; false].
Proof.
  apply (fixed_window_admits_exactly_amount (Sample.T 7) Sample.two_per_minute ["a"]
           MongoDBStorage.empty); [reflexivity | reflexivity | reflexivity].
Defined.

(** ** Elastic expiry *)

Lemma elastic_hit_sets_expiry now item identifiers (s : MongoDBStorage.t) :
  exists count,
    MongoDBStorage.counters
      (snd (FixedWindowElasticExpiryRateLimiter.hit now item identifiers s))
      !! RateLimitItem.key_for item identifiers =
    Some (Counter.mk count (now + Clock.seconds (RateLimitItem.get_expiry item))).
Proof.
  rewrite elastic_hit_unfold. cbn [snd]. rewrite incr_lookup.
  destruct (MongoDBStorage.counters s !! RateLimitItem.key_for item identifiers)
    as [c|]; [|eexists; reflexivity].
  unfold MongoDBStorage.incr_pipeline.
  destruct (Counter.expireAt c <? now); eexists; reflexivity.
Qed.

Lemma fixed_stats_reset now item identifiers (s : MongoDBStorage.t) c :
  MongoDBStorage.counters s !! RateLimitItem.key_for item identifiers = Some c ->
  fst (fst (FixedWindowRateLimiter.get_window_stats now item identifiers s)) =
  Clock.timegm (Counter.expireAt c).
Proof.
  intros Hc. rewrite fixed_stats_unfold. cbn [fst].
  unfold MongoDBStorage.get_expiry. rewrite Hc. reflexivity.
Qed.

(** C6, as the code has it.  On an unexpired counter record every elastic
    hit, admitted or not, stores [now + expiry] as the record's expiry, so
    the reset time that [get_window_stats] reports afterwards is the whole
    second of the call plus [expiry]; when the record was left by a previous
    elastic hit, the reported reset has grown by the number of whole clock
    seconds between the two calls, which is a strict growth only when the
    clock's second has changed in between.  The hit is the fixed window hit
    with [elastic = true] handed to [incr]. *)
Theorem elastic_hit_extends_expiry now item identifiers (s : MongoDBStorage.t) c :
  let key := RateLimitItem.key_for item identifiers in
  let amount := RateLimitItem.amount item in
  let expiry := RateLimitItem.get_expiry item in
  let stats t s' :=
    fst (FixedWindowElasticExpiryRateLimiter.get_window_stats t item identifiers s') in
  MongoDBStorage.counters s !! key = Some c ->
  now <= Counter.expireAt c ->
  let r := FixedWindowElasticExpiryRateLimiter.hit now item identifiers s in
  MongoDBStorage.counters (snd r) !! key =
    Some (Counter.mk (Counter.count c + 1) (now + Clock.seconds expiry)) /\
  fst r = (Counter.count c + 1 <=? amount) /\
  (forall later, fst (stats later (snd r)) = Clock.timegm now + expiry) /\
  (forall previous s0 later,
     s = snd (FixedWindowElasticExpiryRateLimiter.hit previous item identifiers s0) ->
     fst (stats later (snd r)) =
       fst (stats later s) + (Clock.timegm now - Clock.timegm previous) /\
     (Clock.timegm previous < Clock.timegm now ->
      fst (stats later s) < fst (stats later (snd r)))) /\
  r = (fst (MongoDBStorage.incr now key expiry true s) <=? amount,
       snd (MongoDBStorage.incr now key expiry true s)) /\
  FixedWindowRateLimiter.hit now item identifiers s =
    (fst (MongoDBStorage.incr now key expiry false s) <=? amount,
     snd (MongoDBStorage.incr now key expiry false s)).
Proof.
  intros key amount expiry stats Hc Hlive r.
  assert (Hstored : MongoDBStorage.counters (snd r) !! key =
            Some (Counter.mk (Counter.count c + 1) (now + Clock.seconds expiry))).
  { subst r. rewrite elastic_hit_unfold. cbn [snd].
    rewrite incr_lookup. fold key. rewrite Hc.
    rewrite (incr_pipeline_live _ _ _ _ Hlive). reflexivity. }
  assert (Hafter : forall later, fst (stats later (snd r)) = Clock.timegm now + expiry).
  { intros later. subst stats. cbn beta.
    unfold FixedWindowElasticExpiryRateLimiter.get_window_stats.
    rewrite (fixed_stats_reset _ _ _ _ _ Hstored). cbn [Counter.expireAt].
    apply timegm_plus_seconds. }
  split; [exact Hstored|].
  split.
  { subst r. rewrite elastic_hit_unfold. cbn [fst].
    rewrite incr_result. fold key. rewrite Hc.
    rewrite (incr_pipeline_live _ _ _ _ Hlive). reflexivity. }
  split; [exact Hafter|].
  split; [|split; [apply elastic_hit_unfold | apply fixed_hit_unfold]].
  intros previous s0 later Hs.
  assert (Hprev : Counter.expireAt c = previous + Clock.seconds expiry).
  { destruct (elastic_hit_sets_expiry previous item identifiers s0) as [n Hn].
    rewrite <- Hs in Hn. fold key expiry in Hn. rewrite Hc in Hn.
    injection Hn as ->. reflexivity. }
  assert (Hbefore : fst (stats later s) = Clock.timegm previous + expiry).
  { subst stats. cbn beta.
    unfold FixedWindowElasticExpiryRateLimiter.get_window_stats.
    rewrite (fixed_stats_reset _ _ _ _ _ Hc), Hprev.
    apply timegm_plus_seconds. }
  rewrite Hafter, Hbefore. lia.
Qed.

Lemma elastic_hit_extends_expiry_witness :
  fst (fst (FixedWindowElasticExpiryRateLimiter.get_window_stats (Sample.T 1)
              Sample.two_per_minute []
              (snd (FixedWindowElasticExpiryRateLimiter.hit (Sample.T 1)
                      Sample.two_per_minute [] Sample.hit_once)))) =
  fst (fst (FixedWindowElasticExpiryRateLimiter.get_window_stats (Sample.T 1)
              Sample.two_per_minute [] Sample.hit_once)) + (1 - 0).
Proof.
  pose proof (elastic_hit_extends_expiry (Sample.T 1) Sample.two_per_minute []
                Sample.hit_once (Counter.mk 1 (Sample.T 60))) as H.
  cbv zeta in H.
  destruct H as (_ & _ & _ & Hgrow & _); [reflexivity | vm_compute; discriminate |].
  apply (Hgrow (Sample.T 0) MongoDBStorage.empty (Sample.T 1)). reflexivity.
Defined.

(** C6 as stated fails: after an elastic hit at 0 s, a second elastic hit
    half a second later finds the record unexpired and stores the later
    expiry, yet [get_window_stats] reports the reset time 60 before it and
    60 after it, since [get_expiry] cuts the stored expiry to whole
    seconds. *)
Lemma elastic_hit_reset_can_stand_still :
  MongoDBStorage.counters Sample.hit_once !! "LIMITER" =
    Some (Counter.mk 1 (Sample.T 60)) /\
  Sample.T 0 < 500000 <= Sample.T 60 /\
  MongoDBStorage.counters
    (snd (FixedWindowElasticExpiryRateLimiter.hit 500000 Sample.two_per_minute []
            Sample.hit_once)) !! "LIMITER" =
    Some (Counter.mk 2 (500000 + Sample.T 60)) /\
  fst (fst (FixedWindowElasticExpiryRateLimiter.get_window_stats 500000
              Sample.two_per_minute [] Sample.hit_once)) = 60 /\
  fst (fst (FixedWindowElasticExpiryRateLimiter.get_window_stats 500000
              Sample.two_per_minute []
              (snd (FixedWindowElasticExpiryRateLimiter.hit 500000
                      Sample.two_per_minute [] Sample.hit_once)))) = 60 /\
  ~ (60 < 60).
Proof.
  split; [reflexivity|]. split; [split; [reflexivity | vm_compute; discriminate]|].
  split; [reflexivity|]. split; [reflexivity|]. split; [reflexivity | lia].
Qed.

(** ** Reading calls *)

Lemma moving_test_unfold now item identifiers (s : MongoDBStorage.t) :
  MovingWindowRateLimiter.test now item identifiers s =
  (snd (fst (MongoDBStorage.get_moving_window now
               (RateLimitItem.key_for item identifiers)
               (RateLimitItem.amount item) (RateLimitItem.get_expiry item) s))
     <? RateLimitItem.amount item, s).
Proof.
  unfold MovingWindowRateLimiter.test. rewrite bind_run. cbn [get_moving_window
    MongoDBStorage_MovingWindowSupport]. rewrite get_moving_window_read_only.
  reflexivity.
Qed.

Lemma moving_stats_unfold now item identifiers (s : MongoDBStorage.t) :
  MovingWindowRateLimiter.get_window_stats now item identifiers s =
  (let res := fst (MongoDBStorage.get_moving_window now
                     (RateLimitItem.key_for item identifiers)
                     (RateLimitItem.amount item) (RateLimitItem.get_expiry item) s) in
   (fst res + RateLimitItem.get_expiry item, RateLimitItem.amount item - snd res), s).
Proof.
  unfold MovingWindowRateLimiter.get_window_stats. rewrite bind_run.
  cbn [get_moving_window MongoDBStorage_MovingWindowSupport].
  rewrite get_moving_window_read_only.
  destruct (fst (MongoDBStorage.get_moving_window _ _ _ _ s)). reflexivity.
Qed.

(** C7. [test] and [get_window_stats], of the fixed window and of the
    moving window limiter, hand back the storage they were given: two
    [test] calls in a row at one clock reading give the same answer, and
    [get_window_stats] reports after a [test] what it reports without it. *)
Theorem test_and_get_window_stats_read_only now item identifiers (s : MongoDBStorage.t) :
  (snd (FixedWindowRateLimiter.test now item identifiers s) = s /\
   snd (FixedWindowRateLimiter.get_window_stats now item identifiers s) = s /\
   snd (MovingWindowRateLimiter.test now item identifiers s) = s /\
   snd (MovingWindowRateLimiter.get_window_stats now item identifiers s) = s) /\
  (fst (repeat_call 2 (FixedWindowRateLimiter.test now item identifiers) s) =
     [fst (FixedWindowRateLimiter.test now item identifiers s);
      fst (FixedWindowRateLimiter.test now item identifiers s)] /\
   fst (repeat_call 2 (MovingWindowRateLimiter.test now item identifiers) s) =
     [fst (MovingWindowRateLimiter.test now item identifiers s);
      fst (MovingWindowRateLimiter.test now item identifiers s)]) /\
  (fst (FixedWindowRateLimiter.get_window_stats now item identifiers
          (snd (FixedWindowRateLimiter.test now item identifiers s))) =
     fst (FixedWindowRateLimiter.get_window_stats now item identifiers s) /\
   fst (FixedWindowRateLimiter.get_window_stats now item identifiers
          (snd (FixedWindowRateLimiter.get_window_stats now item identifiers s))) =
     fst (FixedWindowRateLimiter.get_window_stats now item identifiers s) /\
   fst (MovingWindowRateLimiter.get_window_stats now item identifiers
          (snd (MovingWindowRateLimiter.test now item identifiers s))) =
     fst (MovingWindowRateLimiter.get_window_stats now item identifiers s) /\
   fst (MovingWindowRateLimiter.get_window_stats now item identifiers
          (snd (MovingWindowRateLimiter.get_window_stats now item identifiers s))) =
     fst (MovingWindowRateLimiter.get_window_stats now item identifiers s)).
Proof.
  assert (Hmt : snd (MovingWindowRateLimiter.test now item identifiers s) = s)
    by (rewrite moving_test_unfold; reflexivity).
  assert (Hms : snd (MovingWindowRateLimiter.get_window_stats now item identifiers s) = s)
    by (rewrite moving_stats_unfold; reflexivity).
  split; [repeat split; assumption || reflexivity|].
  split.
  - split.
    + reflexivity.
    + rewrite !repeat_call_S, Hmt. reflexivity.
  - rewrite Hmt, Hms. repeat split; reflexivity.
Qed.

(** ** [clear] *)

Lemma clear_unfold item identifiers (s : MongoDBStorage.t) :
  snd (RateLimiter.clear item identifiers s) =
  MongoDBStorage.mk
    (delete (RateLimitItem.key_for item identifiers) (MongoDBStorage.counters s))
    (delete (RateLimitItem.key_for item identifiers) (MongoDBStorage.windows s)).
Proof. reflexivity. Qed.

Lemma aggregate_absent lower key s :
  MongoDBStorage.windows s !! key = None -> MongoDBStorage.aggregate lower key s = [].
Proof.
  intros H. unfold MongoDBStorage.aggregate, MongoDBStorage.stage_match.
  rewrite H. reflexivity.
Qed.

(** C8. Clearing twice leaves the storage that clearing once leaves, and
    clearing a key that has no record changes nothing; right after [clear],
    [get_window_stats] reports the item's [amount] as remaining. *)
Theorem clear_idempotent now item identifiers (s : MongoDBStorage.t) :
  0 < RateLimitItem.amount item ->
  let cleared := snd (RateLimiter.clear item identifiers s) in
  snd (RateLimiter.clear item identifiers cleared) = cleared /\
  (MongoDBStorage.counters s !! RateLimitItem.key_for item identifiers = None ->
   MongoDBStorage.windows s !! RateLimitItem.key_for item identifiers = None ->
   cleared = s) /\
  snd (fst (FixedWindowRateLimiter.get_window_stats now item identifiers cleared)) =
    RateLimitItem.amount item /\
  snd (fst (MovingWindowRateLimiter.get_window_stats now item identifiers cleared)) =
    RateLimitItem.amount item.
Proof.
  intros Ha cleared. subst cleared. rewrite !clear_unfold. cbn [MongoDBStorage.counters
    MongoDBStorage.windows].
  split; [rewrite !delete_delete_eq; reflexivity|].
  split.
  { intros Hc Hw. rewrite (delete_id _ _ Hc), (delete_id _ _ Hw).
    destruct s; reflexivity. }
  split.
  - rewrite fixed_stats_unfold. cbn [fst snd].
    rewrite get_absent by (cbn; apply lookup_delete_eq). lia.
  - rewrite moving_stats_unfold. cbn [fst snd].
    unfold MongoDBStorage.get_moving_window.
    rewrite aggregate_absent by (cbn; apply lookup_delete_eq).
    cbn [fst snd]. lia.
Qed.

Lemma clear_idempotent_witness :
  snd (fst (FixedWindowRateLimiter.get_window_stats (Sample.T 1) Sample.per_minute []
              (snd (RateLimiter.clear Sample.per_minute [] Sample.exhausted)))) = 10.
Proof.
  pose proof (clear_idempotent (Sample.T 1) Sample.per_minute [] Sample.exhausted) as H.
  cbv zeta in H.
  destruct H as (_ & _ & Hfixed & _); [reflexivity | exact Hfixed].
Defined.

(** ** Expired counters that are still stored *)

(** C10. While a counter record whose [expireAt] has passed is still
    stored, [get] returns 0 and [get_expiry] returns the whole second of the
    stored [expireAt], an instant before [now]; so the fixed window
    [get_window_stats] reports a reset time in the past together with the
    full [amount] as remaining. *)
Theorem expired_counter_reports_past_reset now item identifiers (s : MongoDBStorage.t) c :
  let key := RateLimitItem.key_for item identifiers in
  MongoDBStorage.counters s !! key = Some c ->
  Counter.expireAt c < now ->
  0 < RateLimitItem.amount item ->
  fst (MongoDBStorage.get now key s) = 0 /\
  fst (MongoDBStorage.get_expiry now key s) = Clock.timegm (Counter.expireAt c) /\
  Clock.seconds (fst (MongoDBStorage.get_expiry now key s)) < now /\
  fst (FixedWindowRateLimiter.get_window_stats now item identifiers s) =
    (Clock.timegm (Counter.expireAt c), RateLimitItem.amount item).
Proof.
  intros key Hc Hpast Ha.
  assert (Hget : fst (MongoDBStorage.get now key s) = 0)
    by (apply (get_expired _ _ c); assumption).
  assert (Hexp : fst (MongoDBStorage.get_expiry now key s) =
                 Clock.timegm (Counter.expireAt c))
    by (unfold MongoDBStorage.get_expiry; rewrite Hc; reflexivity).
  split; [exact Hget|]. split; [exact Hexp|]. split.
  - rewrite Hexp. pose proof (timegm_le (Counter.expireAt c)). lia.
  - rewrite fixed_stats_unfold. cbn [fst]. fold key. rewrite Hget, Hexp.
    f_equal. lia.
Qed.

Lemma expired_counter_reports_past_reset_witness :
  fst (FixedWindowRateLimiter.get_window_stats (Sample.T 5) Sample.per_minute []
         (MongoDBStorage.mk {[ "LIMITER" := Counter.mk 10 (Sample.T 2) ]} ∅)) = (2, 10).
Proof.
  apply (expired_counter_reports_past_reset (Sample.T 5) Sample.per_minute []
           (MongoDBStorage.mk {[ "LIMITER" := Counter.mk 10 (Sample.T 2) ]} ∅)
           (Counter.mk 10 (Sample.T 2)));
    [reflexivity | reflexivity | reflexivity].
Defined.

(** ** The capability guard of the moving window limiter *)

(** C2. The constructor of [MovingWindowRateLimiter] raises exactly when the
    storage has neither [acquire_entry] nor [get_moving_window]; a storage
    that has [acquire_entry] and lacks [get_moving_window] is accepted. *)
Theorem moving_window_init_accepts_half_storage :
  (forall storage,
     (exists e, MovingWindowRateLimiter.init storage = inl e) <->
     PyObject.hasattr storage "acquire_entry" = false /\
     PyObject.hasattr storage "get_moving_window" = false) /\
  PyObject.hasattr Sample.only_acquire_entry "get_moving_window" = false /\
  MovingWindowRateLimiter.init Sample.only_acquire_entry = inr Sample.only_acquire_entry.
Proof.
  split; [|split; reflexivity].
  intros storage. unfold MovingWindowRateLimiter.init.
  destruct (PyObject.hasattr storage "acquire_entry"),
           (PyObject.hasattr storage "get_moving_window"); cbn.
  - split; [intros [e He]; discriminate | intros [H _]; discriminate].
  - split; [intros [e He]; discriminate | intros [H _]; discriminate].
  - split; [intros [e He]; discriminate | intros [_ H]; discriminate].
  - split; [intros _; split; reflexivity | intros _; eexists; reflexivity].
Qed.

(** ** Lists of timestamps *)

Lemma foldl_max_foldr (m : Z) (es : list Z) : foldl Z.max m es = foldr Z.max m es.
Proof.
  revert m. induction es as [|x es IH]; intros m; [reflexivity|].
  cbn [foldl foldr]. rewrite IH. clear IH.
  induction es as [|y es IH]; cbn [foldr]; [apply Z.max_comm|].
  rewrite IH. lia.
Qed.

Lemma foldr_max_spec (m : Z) (es : list Z) :
  foldr Z.max m es ∈ m :: es /\ Forall (fun x => x <= foldr Z.max m es) (m :: es).
Proof.
  induction es as [|x es [IHin IHall]]; cbn [foldr].
  - split; [left | constructor; [lia | constructor]].
  - apply Forall_cons in IHall as [Hm Hall]. split.
    + destruct (Z.max_spec x (foldr Z.max m es)) as [[_ ->] | [_ ->]].
      * apply elem_of_cons in IHin as [-> | Hin]; [left | right; right; exact Hin].
      * right; left.
    + constructor; [lia|]. constructor; [lia|].
      eapply Forall_impl; [exact Hall|]. cbn. intros; lia.
Qed.

Lemma newest_spec (es : list Z) (e : Z) :
  newest es = Some e -> e ∈ es /\ Forall (fun x => x <= e) es.
Proof.
  destruct es as [|x es]; [discriminate|]. cbn. intros [= <-].
  apply foldr_max_spec.
Qed.

Lemma descending_cons x es :
  descending (x :: es) <-> Forall (fun e => e <= x) es /\ descending es.
Proof. unfold descending. apply StronglySorted_cons. Qed.

Lemma descending_take n es : descending es -> descending (take n es).
Proof.
  unfold descending. intros H. rewrite <- (take_drop n es) in H.
  eapply StronglySorted_app_1_l, H.
Qed.

Lemma descending_drop n es : descending es -> descending (drop n es).
Proof.
  unfold descending. intros H. rewrite <- (take_drop n es) in H.
  eapply StronglySorted_app_1_r, H.
Qed.

Lemma descending_slice n es : descending es -> descending (MongoDBStorage.slice n es).
Proof.
  intros H. unfold MongoDBStorage.slice.
  destruct (0 <=? n); [apply descending_take | apply descending_drop]; exact H.
Qed.

Lemma Forall_slice (P : Z -> Prop) n es :
  Forall P es -> Forall P (MongoDBStorage.slice n es).
Proof.
  intros H. unfold MongoDBStorage.slice.
  destruct (0 <=? n); [apply Forall_take | apply Forall_drop]; exact H.
Qed.

Lemma filter_none_below lower (es : list Z) :
  Forall (fun e => e < lower) es -> filter (fun e => lower <= e) es = [].
Proof.
  induction 1 as [|x es Hx _ IH]; [reflexivity|].
  rewrite filter_cons. destruct (decide (lower <= x)); [lia | exact IH].
Qed.

(** In a list kept newest first, the entries inside the window are a prefix:
    position [n] holds an entry inside the window exactly when more than [n]
    entries lie inside it. *)
Lemma descending_lookup_in_window lower (es : list Z) (n : nat) :
  descending es ->
  (exists e, es !! n = Some e /\ lower <= e) <->
  (n < length (filter (fun e => (lower <= e)%Z) es))%nat.
Proof.
  intros Hd. revert n. induction es as [|x es IH]; intros n.
  - cbn. split; [intros (e & He & _); discriminate | lia].
  - apply descending_cons in Hd as [Hall Hd]. specialize (IH Hd).
    rewrite filter_cons. destruct (decide (lower <= x)) as [Hx|Hx].
    + destruct n as [|n]; cbn.
      * split; [lia | intros _; exists x; split; [reflexivity | exact Hx]].
      * rewrite IH. lia.
    + assert (Hbelow : Forall (fun e => e < lower) (x :: es)).
      { constructor; [lia|]. eapply Forall_impl; [exact Hall|]. cbn. intros; lia. }
      rewrite filter_none_below by (eapply Forall_inv_tail, Hbelow).
      split; [|cbn; lia].
      intros (e & He & Hle). apply list_elem_of_lookup_2 in He.
      rewrite Forall_forall in Hbelow. specialize (Hbelow e He). cbn in Hbelow. lia.
Qed.

(** ** The conditional update *)

Lemma entries_at_nil i : MongoDBStorage.entries_at i [] = None.
Proof. unfold MongoDBStorage.entries_at. destruct (0 <=? i); reflexivity. Qed.

Lemma acquire_entry_unfold now key limit expiry s :
  MongoDBStorage.acquire_entry now key limit expiry s =
  if MongoDBStorage.not_gte (now - Clock.seconds expiry)
       (MongoDBStorage.entries_at (limit - 1) (stored_entries key s))
  then (true,
        MongoDBStorage.mk (MongoDBStorage.counters s)
          (<[key := Window.mk (MongoDBStorage.push_front now limit (stored_entries key s))
                              (now + Clock.seconds expiry)]> (MongoDBStorage.windows s)))
  else (false, s).
Proof.
  unfold MongoDBStorage.acquire_entry, MongoDBStorage.update_one, stored_entries.
  destruct (MongoDBStorage.windows s !! key) as [d|].
  - destruct (MongoDBStorage.not_gte _ _); reflexivity.
  - rewrite entries_at_nil. reflexivity.
Qed.

(** On a record kept newest first, the condition on the single element at
    index [limit - 1] holds exactly when fewer than [limit] entries lie
    inside the window. *)
Lemma not_gte_iff_count lower limit (es : list Z) :
  0 < limit -> descending es ->
  MongoDBStorage.not_gte lower (MongoDBStorage.entries_at (limit - 1) es) = true <->
  Z.of_nat (length (filter (fun e => lower <= e) es)) < limit.
Proof.
  intros Hlimit Hd. unfold MongoDBStorage.entries_at.
  destruct (Z.leb_spec 0 (limit - 1)) as [_|]; [|lia].
  pose proof (descending_lookup_in_window lower es (Z.to_nat (limit - 1)) Hd) as Hpre.
  destruct (es !! Z.to_nat (limit - 1)) as [e|] eqn:He; cbn.
  - destruct (Z.leb_spec lower e) as [Hle|Hlt]; cbn.
    + split; [discriminate|]. intros Hcount.
      assert (Z.to_nat (limit - 1) < length (filter (fun e => (lower <= e)%Z) es))%nat
        by (apply Hpre; exists e; split; [reflexivity | exact Hle]).
      lia.
    + split; [|reflexivity]. intros _.
      destruct (decide (Z.of_nat (length (filter (fun e => lower <= e) es)) < limit))
        as [|Hge]; [assumption|].
      assert (Hex : exists e', Some e = Some e' /\ lower <= e') by (apply Hpre; lia).
      destruct Hex as (e' & [= <-] & Hle). lia.
  - split; [|reflexivity]. intros _.
    apply lookup_ge_None in He. pose proof (length_filter (fun e => lower <= e) es). lia.
Qed.

(** ** The aggregation pipeline *)

Lemma group_one_key k (es : list Z) (m c : Z) :
  foldl (fun acc ke => MongoDBStorage.group_add (fst ke) (snd ke) acc)
        [(k, (m, c))] (map (fun e => (k, e)) es) =
  [(k, (foldl Z.max m es, c + Z.of_nat (length es)))].
Proof.
  revert m c. induction es as [|x es IH]; intros m c.
  - cbn. rewrite Z.add_0_r. reflexivity.
  - cbn [map foldl fst snd MongoDBStorage.group_add].
    destruct (decide (k = k)) as [_|Hne]; [|congruence].
    rewrite IH. do 3 f_equal. cbn [length]. lia.
Qed.

Lemma aggregate_present lower key s d :
  MongoDBStorage.windows s !! key = Some d ->
  MongoDBStorage.aggregate lower key s =
  match filter (fun e => lower <= e) (Window.entries d) with
  | [] => []
  | e :: es => [(key, (foldl Z.max e es, Z.of_nat (length (e :: es))))]
  end.
Proof.
  intros Hd. unfold MongoDBStorage.aggregate, MongoDBStorage.stage_match.
  rewrite Hd. unfold MongoDBStorage.stage_project, MongoDBStorage.stage_unwind.
  cbn [map concat fst snd]. rewrite app_nil_r.
  destruct (filter (fun e => lower <= e) (Window.entries d)) as [|e es]; [reflexivity|].
  unfold MongoDBStorage.stage_group.
  cbn [map foldl fst snd MongoDBStorage.group_add].
  rewrite group_one_key. do 3 f_equal. cbn [length]. lia.
Qed.

Lemma aggregate_stored lower key s :
  MongoDBStorage.aggregate lower key s =
  match filter (fun e => lower <= e) (stored_entries key s) with
  | [] => []
  | e :: es => [(key, (foldl Z.max e es, Z.of_nat (length (e :: es))))]
  end.
Proof.
  unfold stored_entries.
  destruct (MongoDBStorage.windows s !! key) as [d|] eqn:Hd.
  - apply aggregate_present, Hd.
  - rewrite aggregate_absent by exact Hd. reflexivity.
Qed.

(** C1, as the code has it.  [get_moving_window] hands back the storage it
    was given; the count it returns is the number of stored entries with
    timestamp [>= now - expiry], and the window start it returns is the
    whole second of the NEWEST of them; with no entry inside the window it
    returns the whole second of [now] and 0. *)
Theorem get_moving_window_returns_newest now key limit expiry s :
  let inside := in_window now expiry (stored_entries key s) in
  let r := MongoDBStorage.get_moving_window now key limit expiry s in
  snd r = s /\
  snd (fst r) = window_count now key expiry s /\
  match newest inside with
  | Some e =>
      fst (fst r) = Clock.int e /\ e ∈ inside /\ Forall (fun x => x <= e) inside
  | None => fst r = (Clock.int now, 0)
  end.
Proof.
  intros inside r. split; [apply get_moving_window_read_only|].
  subst r. unfold MongoDBStorage.get_moving_window, window_count.
  rewrite aggregate_stored. fold (in_window now expiry (stored_entries key s)).
  fold inside. destruct inside as [|e es] eqn:Hin.
  - split; reflexivity.
  - cbn [fst snd newest]. split; [reflexivity|].
    rewrite foldl_max_foldr. split; [reflexivity|].
    apply foldr_max_spec.
Qed.

(** C1 as stated fails: with entries at 10 s and 20 s, both inside the
    window at 25 s, the oldest entry is the one at 10 s and the call returns
    20 as the window start. *)
Lemma get_moving_window_start_is_not_oldest :
  oldest (in_window (Sample.T 25) 60 (stored_entries "k" Sample.two_hits)) =
    Some (Sample.T 10) /\
  fst (MongoDBStorage.get_moving_window (Sample.T 25) "k" 2 60 Sample.two_hits) = (20, 2) /\
  20 <> Clock.int (Sample.T 10).
Proof. split; [reflexivity|]. split; [reflexivity | discriminate]. Qed.

(** ** The ordering invariant of the [windows] collection *)

Lemma window_inv_later now now' d : now <= now' -> window_inv now d -> window_inv now' d.
Proof.
  intros Hle [Hd Hall]. split; [exact Hd|].
  eapply Forall_impl; [exact Hall|]. cbn. intros; lia.
Qed.

Lemma push_front_inv now limit (es : list Z) :
  descending es -> Forall (fun e => e <= now) es ->
  descending (MongoDBStorage.push_front now limit es) /\
  Forall (fun e => e <= now) (MongoDBStorage.push_front now limit es).
Proof.
  intros Hd Hall. unfold MongoDBStorage.push_front. split.
  - apply descending_slice, descending_cons. split; assumption.
  - apply Forall_slice. constructor; [lia | exact Hall].
Qed.

Lemma stored_entries_inv now key s :
  windows_inv now s ->
  descending (stored_entries key s) /\ Forall (fun e => e <= now) (stored_entries key s).
Proof.
  intros Hinv. unfold stored_entries.
  destruct (MongoDBStorage.windows s !! key) as [d|] eqn:Hd.
  - apply (Hinv key d Hd).
  - split; constructor.
Qed.

Lemma acquire_entry_inv now key limit expiry s :
  windows_inv now s ->
  windows_inv now (snd (MongoDBStorage.acquire_entry now key limit expiry s)).
Proof.
  intros Hinv. rewrite acquire_entry_unfold.
  destruct (MongoDBStorage.not_gte _ _); [|exact Hinv].
  intros k d. cbn [snd MongoDBStorage.windows]. rewrite lookup_insert.
  destruct (decide (key = k)) as [->|Hne].
  - intros [= <-]. unfold window_inv. cbn [Window.entries].
    destruct (stored_entries_inv now k s Hinv) as [Hd Hall].
    apply push_front_inv; assumption.
  - apply Hinv.
Qed.

Lemma reachable_windows_inv now s : reachable now s -> windows_inv now s.
Proof.
  induction 1 as [now | now now' s _ IH Hle | now key expiry elastic s _ IH
                 | now key limit expiry s _ IH | now key s _ IH | now s _ IH
                 | now key s _ IH | now key s _ IH].
  - intros k d Hd. cbn in Hd. rewrite lookup_empty in Hd. discriminate.
  - intros k d Hd. eapply window_inv_later; [exact Hle | exact (IH k d Hd)].
  - exact IH.
  - apply acquire_entry_inv, IH.
  - intros k d. cbn [snd MongoDBStorage.clear MongoDBStorage.windows].
    intros [_ Hd]%lookup_delete_Some. exact (IH k d Hd).
  - intros k d Hd. cbn in Hd. rewrite lookup_empty in Hd. discriminate.
  - unfold MongoDBStorage.ttl_delete_counter.
    destruct (MongoDBStorage.counters s !! key) as [c|]; [|exact IH].
    destruct (Counter.expireAt c <=? now); exact IH.
  - unfold MongoDBStorage.ttl_delete_window.
    destruct (MongoDBStorage.windows s !! key) as [w|]; [|exact IH].
    destruct (Window.expireAt w <=? now); [|exact IH].
    intros k d. cbn [MongoDBStorage.windows].
    intros [_ Hd]%lookup_delete_Some. exact (IH k d Hd).
Qed.

Lemma acquire_entry_admits_iff now key limit expiry s :
  0 < limit -> descending (stored_entries key s) ->
  fst (MongoDBStorage.acquire_entry now key limit expiry s) = true <->
  window_count now key expiry s < limit.
Proof.
  intros Hlimit Hd. rewrite acquire_entry_unfold. unfold window_count, in_window.
  rewrite <- (not_gte_iff_count (now - Clock.seconds expiry) limit _ Hlimit Hd).
  destruct (MongoDBStorage.not_gte _ _); cbn [fst]; reflexivity.
Qed.

(** C4. In every storage the program can be in, and for a positive
    [limit], [acquire_entry] returns true exactly when fewer than [limit]
    stored entries lie inside the trailing window.  When it does, the record
    of [key] holds the current timestamp in front of the entries it had,
    cut to at most [limit] entries by dropping the oldest, and its
    [expireAt] is [now + expiry]; nothing else is written.  When it returns
    false the storage is the one it was given. *)
Theorem acquire_entry_admits_iff_window_not_full now key limit expiry s :
  reachable now s ->
  0 < limit ->
  let old := stored_entries key s in
  let r := MongoDBStorage.acquire_entry now key limit expiry s in
  (fst r = true <-> window_count now key expiry s < limit) /\
  (fst r = true ->
   exists kept dropped,
     snd r = MongoDBStorage.mk (MongoDBStorage.counters s)
               (<[key := Window.mk kept (now + Clock.seconds expiry)]>
                  (MongoDBStorage.windows s)) /\
     now :: old = kept ++ dropped /\
     head kept = Some now /\
     length kept = Nat.min (Z.to_nat limit) (S (length old)) /\
     (forall k d, k ∈ kept -> d ∈ dropped -> d <= k)) /\
  (fst r = false -> snd r = s).
Proof.
  intros Hreach Hlimit old r.
  destruct (stored_entries_inv now key s (reachable_windows_inv _ _ Hreach))
    as [Hd Hall]. fold old in Hd, Hall.
  split; [apply acquire_entry_admits_iff; assumption|].
  subst r. rewrite acquire_entry_unfold. fold old.
  destruct (MongoDBStorage.not_gte _ _); cbn [fst snd];
    (split; [|intros; congruence || reflexivity]); [|discriminate].
  intros _. exists (take (Z.to_nat limit) (now :: old)), (drop (Z.to_nat limit) (now :: old)).
  unfold MongoDBStorage.push_front, MongoDBStorage.slice.
  destruct (Z.leb_spec 0 limit) as [_|]; [|lia].
  split; [reflexivity|].
  split; [symmetry; apply take_drop|].
  split.
  { destruct (Z.to_nat limit) as [|n] eqn:Hn; [lia | reflexivity]. }
  split; [rewrite length_take; reflexivity|].
  intros k d Hk Hdr.
  assert (Hsorted : descending (take (Z.to_nat limit) (now :: old) ++
                                drop (Z.to_nat limit) (now :: old))).
  { rewrite take_drop. apply descending_cons. split; assumption. }
  exact (StronglySorted_app_1_elem_of _ _ _ _ _ Hsorted Hk Hdr).
Qed.

Lemma reachable_two_hits : reachable (Sample.T 25) Sample.two_hits.
Proof.
  apply (reach_wait (Sample.T 20)); [|vm_compute; discriminate].
  apply (reach_acquire_entry (Sample.T 20) "k" 2 60).
  apply (reach_wait (Sample.T 10)); [|vm_compute; discriminate].
  apply (reach_acquire_entry (Sample.T 10) "k" 2 60).
  apply reach_empty.
Defined.

Lemma acquire_entry_admits_iff_window_not_full_witness :
  fst (MongoDBStorage.acquire_entry (Sample.T 25) "k" 2 60 Sample.two_hits) = true <->
  window_count (Sample.T 25) "k" 60 Sample.two_hits < 2.
Proof.
  pose proof (acquire_entry_admits_iff_window_not_full (Sample.T 25) "k" 2 60
                Sample.two_hits reachable_two_hits) as H.
  cbv zeta in H. destruct H as (Hiff & _); [reflexivity | exact Hiff].
Defined.

(** ** Runs of [acquire_entry] *)

Lemma stored_entries_acquire_entry now key limit expiry s :
  stored_entries key (snd (MongoDBStorage.acquire_entry now key limit expiry s)) =
  if MongoDBStorage.not_gte (now - Clock.seconds expiry)
       (MongoDBStorage.entries_at (limit - 1) (stored_entries key s))
  then MongoDBStorage.push_front now limit (stored_entries key s)
  else stored_entries key s.
Proof.
  rewrite acquire_entry_unfold.
  destruct (MongoDBStorage.not_gte _ _); cbn [snd]; [|reflexivity].
  unfold stored_entries at 1. cbn [MongoDBStorage.windows].
  rewrite lookup_insert_eq. reflexivity.
Qed.

Lemma push_front_bounded now limit (es : list Z) :
  0 <= limit -> Z.of_nat (length (MongoDBStorage.push_front now limit es)) <= limit.
Proof.
  intros Hlimit. unfold MongoDBStorage.push_front, MongoDBStorage.slice.
  destruct (Z.leb_spec 0 limit) as [_|]; [|lia].
  rewrite length_take. lia.
Qed.

Lemma acquire_entries_inv key limit expiry (times : list Z) :
  0 <= limit -> Sorted Z.le times ->
  forall s,
    descending (stored_entries key s) ->
    bounded key limit s ->
    (forall t, head times = Some t -> Forall (fun e => e <= t) (stored_entries key s)) ->
    descending (stored_entries key (acquire_entries key limit expiry times s)) /\
    bounded key limit (acquire_entries key limit expiry times s).
Proof.
  intros Hlimit. induction 1 as [|t ts Hsorted IH Hhd]; intros s Hd Hb Hall.
  - split; assumption.
  - specialize (Hall t eq_refl).
    destruct (push_front_inv t limit _ Hd Hall) as [Hd' Hall'].
    unfold acquire_entries. cbn [foldl]. apply IH.
    + rewrite stored_entries_acquire_entry.
      destruct (MongoDBStorage.not_gte _ _); assumption.
    + unfold bounded. rewrite stored_entries_acquire_entry.
      destruct (MongoDBStorage.not_gte _ _); [apply push_front_bounded, Hlimit | exact Hb].
    + intros t' Ht'. destruct ts as [|t'' ts']; [discriminate|].
      injection Ht' as ->. apply HdRel_inv in Hhd.
      rewrite stored_entries_acquire_entry.
      destruct (MongoDBStorage.not_gte _ _);
        (eapply Forall_impl; [eassumption|]); cbn; intros; lia.
Qed.

(** C9. A record built by [acquire_entry] alone, at clock readings that
    never decrease, holds its entries newest first and at most [limit] of
    them.  Whether a call is admitted depends on the stored entries only
    through the single element at index [limit - 1]; on a record kept
    newest first that test holds exactly when fewer than [limit] entries lie
    inside the trailing window, and on a record out of that order - the
    clock having run backwards between two calls - the two part: the call
    is refused with one entry inside a window of two. *)
Theorem acquire_entry_keeps_newest_first :
  (forall key limit expiry times s,
     0 < limit -> Sorted Z.le times ->
     MongoDBStorage.windows s !! key = None ->
     descending (stored_entries key (acquire_entries key limit expiry times s)) /\
     bounded key limit (acquire_entries key limit expiry times s)) /\
  (forall now key limit expiry s s',
     MongoDBStorage.entries_at (limit - 1) (stored_entries key s) =
     MongoDBStorage.entries_at (limit - 1) (stored_entries key s') ->
     fst (MongoDBStorage.acquire_entry now key limit expiry s) =
     fst (MongoDBStorage.acquire_entry now key limit expiry s')) /\
  (forall now key limit expiry s,
     0 < limit -> descending (stored_entries key s) ->
     (fst (MongoDBStorage.acquire_entry now key limit expiry s) = true <->
      window_count now key expiry s < limit)) /\
  (Sample.backwards =
     acquire_entries "k" 2 60 [Sample.T 100; Sample.T 5] MongoDBStorage.empty /\
   ~ descending (stored_entries "k" Sample.backwards) /\
   fst (MongoDBStorage.acquire_entry (Sample.T 110) "k" 2 60 Sample.backwards) = false /\
   window_count (Sample.T 110) "k" 60 Sample.backwards = 1).
Proof.
  split; [|split; [|split]].
  - intros key limit expiry times s Hlimit Hsorted Hnone.
    assert (Hnil : stored_entries key s = [])
      by (unfold stored_entries; rewrite Hnone; reflexivity).
    apply acquire_entries_inv; [lia | exact Hsorted | | |].
    + rewrite Hnil. constructor.
    + unfold bounded. rewrite Hnil. cbn. lia.
    + intros t _. rewrite Hnil. constructor.
  - intros now key limit expiry s s' Heq.
    rewrite !acquire_entry_unfold, Heq.
    destruct (MongoDBStorage.not_gte _ _); reflexivity.
  - intros now key limit expiry s. apply acquire_entry_admits_iff.
  - split; [reflexivity|]. split; [|split; reflexivity].
    intros Hd. change (descending [Sample.T 5; Sample.T 100]) in Hd.
    apply descending_cons in Hd as [Hall _].
    apply Forall_inv in Hall. vm_compute in Hall. apply Hall. reflexivity.
Qed.

Lemma acquire_entry_keeps_newest_first_witness :
  descending (stored_entries "k" Sample.two_hits) /\ bounded "k" 2 Sample.two_hits.
Proof.
  destruct acquire_entry_keeps_newest_first as (Hrun & _).
  apply (Hrun "k" 2 60 [Sample.T 10; Sample.T 20] MongoDBStorage.empty).
  - reflexivity.
  - repeat constructor; vm_compute; discriminate.
  - reflexivity.
Defined.

(** * Further properties of the storage and of the strategies *)

(** ** Runs of calls *)

Lemma calls_at_cons {St A} (call : Z -> Eff.M St A) t ts (s : St) :
  calls_at call (t :: ts) s =
  (fst (call t s) :: fst (calls_at call ts (snd (call t s))),
   snd (calls_at call ts (snd (call t s)))).
Proof.
  cbn [calls_at]. rewrite bind_run, bind_run. reflexivity.
Qed.

Lemma answers_true amount n c :
  c + Z.of_nat n <= amount -> answers amount n c = replicate n true.
Proof.
  revert c. induction n as [|n IH]; intros c Hle; [reflexivity|].
  cbn [answers replicate]. rewrite IH by lia.
  destruct (Z.leb_spec (c + 1) amount); [reflexivity | lia].
Qed.

Lemma answers_split amount n m c :
  answers amount (n + m) c = answers amount n c ++ answers amount m (c + Z.of_nat n).
Proof.
  revert c. induction n as [|n IH]; intros c.
  - cbn. rewrite Z.add_0_r. reflexivity.
  - cbn [answers Nat.add app]. rewrite IH. do 3 f_equal. lia.
Qed.

Lemma answers_rejected amount n c :
  amount <= c -> answers amount n c = replicate n false.
Proof.
  revert c. induction n as [|n IH]; intros c Hle; [reflexivity|].
  cbn [answers replicate]. rewrite IH by lia.
  destruct (Z.leb_spec (c + 1) amount); [lia | reflexivity].
Qed.

Lemma answers_shape amount n :
  0 <= amount ->
  answers amount n 0 =
  replicate (Nat.min n (Z.to_nat amount)) true ++
  replicate (n - Z.to_nat amount) false.
Proof.
  intros Ha. destruct (Nat.le_gt_cases n (Z.to_nat amount)) as [Hle|Hgt].
  - rewrite answers_true by lia.
    replace (n - Z.to_nat amount)%nat with 0%nat by lia.
    rewrite Nat.min_l by lia. cbn. rewrite app_nil_r. reflexivity.
  - replace n with (Z.to_nat amount + (n - Z.to_nat amount))%nat at 1 by lia.
    rewrite answers_split, answers_true by lia.
    rewrite answers_rejected by lia.
    rewrite Nat.min_r by lia. reflexivity.
Qed.

(** ** [incr] followed by [get] *)

(** X1. A counter written by [incr] with a non-negative expiry is not yet
    expired at the clock reading of the call, and [get] reads it back:
    as long as the stored expiry has not passed, [get] returns the count
    that [incr] returned. *)
Theorem get_after_incr now key expiry elastic s :
  0 <= expiry ->
  exists c,
    MongoDBStorage.counters (snd (MongoDBStorage.incr now key expiry elastic s)) !! key =
      Some c /\
    now <= Counter.expireAt c /\
    forall later,
      later <= Counter.expireAt c ->
      fst (MongoDBStorage.get later key
             (snd (MongoDBStorage.incr now key expiry elastic s))) =
      fst (MongoDBStorage.incr now key expiry elastic s).
Proof.
  intros He.
  pose proof (incr_lookup now key expiry elastic s) as Hstored.
  eexists. split; [exact Hstored|]. split.
  - unfold MongoDBStorage.incr_pipeline, Clock.seconds. pose proof usec_pos.
    destruct (MongoDBStorage.counters s !! key) as [c|]; cbn; [|nia].
    destruct (Z.ltb_spec (Counter.expireAt c) now); [nia|].
    destruct elastic; [nia | lia].
  - intros later Hlater.
    rewrite (get_unexpired later key _ _ Hstored Hlater). reflexivity.
Qed.

Lemma get_after_incr_witness :
  exists c,
    MongoDBStorage.counters
      (snd (MongoDBStorage.incr (Sample.T 1) "k" 2 false Sample.exhausted)) !! "k" =
      Some c /\
    Sample.T 1 <= Counter.expireAt c /\
    forall later,
      later <= Counter.expireAt c ->
      fst (MongoDBStorage.get later "k"
             (snd (MongoDBStorage.incr (Sample.T 1) "k" 2 false Sample.exhausted))) =
      fst (MongoDBStorage.incr (Sample.T 1) "k" 2 false Sample.exhausted).
Proof.
  apply (get_after_incr (Sample.T 1) "k" 2 false Sample.exhausted).
  vm_compute; discriminate.
Defined.

(** X2. With a negative expiry a counter is expired from the moment it is
    created: on a key without a record every [incr] at one clock reading
    returns 1 and [get] keeps returning 0, so the fixed window limiter never
    refuses a hit of an item with a positive amount. *)
Theorem negative_expiry_never_counts now n item identifiers (s : MongoDBStorage.t) :
  RateLimitItem.get_expiry item < 0 ->
  0 < RateLimitItem.amount item ->
  MongoDBStorage.counters s !! RateLimitItem.key_for item identifiers = None ->
  let res := repeat_call n (FixedWindowRateLimiter.hit now item identifiers) s in
  fst res = replicate n true /\
  fst (MongoDBStorage.get now (RateLimitItem.key_for item identifiers) (snd res)) = 0.
Proof.
  intros He Ha Hnone.
  assert (Hgen : forall n (s : MongoDBStorage.t),
            (MongoDBStorage.counters s !! RateLimitItem.key_for item identifiers = None \/
             exists c, MongoDBStorage.counters s !! RateLimitItem.key_for item identifiers
                       = Some c /\ Counter.expireAt c < now) ->
            let res := repeat_call n (FixedWindowRateLimiter.hit now item identifiers) s in
            fst res = replicate n true /\
            fst (MongoDBStorage.get now (RateLimitItem.key_for item identifiers)
                   (snd res)) = 0).
  { clear n s Hnone. induction n as [|n IH]; intros s Hs.
    - cbn. split; [reflexivity|].
      destruct Hs as [Hs | (c & Hs & Hlt)];
        [apply get_absent, Hs | apply (get_expired _ _ c); assumption].
    - cbv zeta.
      assert (Hstep : repeat_call (S n) (FixedWindowRateLimiter.hit now item identifiers) s =
                (fst (FixedWindowRateLimiter.hit now item identifiers s) ::
                 fst (repeat_call n (FixedWindowRateLimiter.hit now item identifiers)
                        (snd (FixedWindowRateLimiter.hit now item identifiers s))),
                 snd (repeat_call n (FixedWindowRateLimiter.hit now item identifiers)
                        (snd (FixedWindowRateLimiter.hit now item identifiers s)))))
        by (cbn [repeat_call]; rewrite bind_run, bind_run; reflexivity).
      rewrite Hstep. cbn [fst snd]. clear Hstep.
      rewrite fixed_hit_unfold. cbn [fst snd].
      pose proof (incr_lookup now (RateLimitItem.key_for item identifiers)
                    (RateLimitItem.get_expiry item) false s) as Hstored.
      rewrite incr_result.
      rewrite (incr_pipeline_fresh _ _ _ _ Hs) in Hstored |- *.
      cbn [Counter.count].
      destruct (IH (snd (MongoDBStorage.incr now (RateLimitItem.key_for item identifiers)
                           (RateLimitItem.get_expiry item) false s))) as [IHa IHb].
      { right. eexists. split; [exact Hstored|]. cbn [Counter.expireAt].
        unfold Clock.seconds. pose proof usec_pos. nia. }
      split; [|exact IHb].
      cbn [replicate]. rewrite IHa.
      destruct (Z.leb_spec 1 (RateLimitItem.amount item)); [reflexivity | lia]. }
  apply Hgen. left. exact Hnone.
Qed.

Lemma negative_expiry_never_counts_witness :
  fst (repeat_call 3
         (FixedWindowRateLimiter.hit (Sample.T 1)
            (RateLimitItem.mk 1 (-1) Sample.key_for) [])
         MongoDBStorage.empty) = [true; true; true].
Proof.
  apply (negative_expiry_never_counts (Sample.T 1) 3
           (RateLimitItem.mk 1 (-1) Sample.key_for) [] MongoDBStorage.empty);
    reflexivity.
Defined.

(** ** [test] against [hit] *)

(** X3. On every storage the fixed window [test] answers what a [hit] at the
    same clock reading would answer, for the plain and for the elastic
    limiter: the record that [get] counts as live is the one [incr]
    increments, the boundary [expireAt = now] included. *)
Theorem fixed_test_predicts_hit now item identifiers (s : MongoDBStorage.t) :
  fst (FixedWindowRateLimiter.test now item identifiers s) =
    fst (FixedWindowRateLimiter.hit now item identifiers s) /\
  fst (FixedWindowElasticExpiryRateLimiter.test now item identifiers s) =
    fst (FixedWindowElasticExpiryRateLimiter.hit now item identifiers s).
Proof.
  unfold FixedWindowElasticExpiryRateLimiter.test.
  rewrite fixed_test_unfold, fixed_hit_unfold, elastic_hit_unfold. cbn [fst].
  rewrite !incr_result.
  destruct (MongoDBStorage.counters s !! RateLimitItem.key_for item identifiers)
    as [c|] eqn:Hc.
  - destruct (Z.lt_ge_cases (Counter.expireAt c) now) as [Hlt|Hge].
    + rewrite (get_expired _ _ _ _ Hc Hlt).
      rewrite !(incr_pipeline_fresh _ _ _ (Some c))
        by (right; exists c; split; [reflexivity | exact Hlt]).
      cbn [Counter.count].
      destruct (Z.ltb_spec 0 (RateLimitItem.amount item)),
               (Z.leb_spec 1 (RateLimitItem.amount item)); split; reflexivity || lia.
    + rewrite (get_unexpired _ _ _ _ Hc Hge).
      rewrite !(incr_pipeline_live _ _ _ _ Hge). cbn [Counter.count].
      destruct (Z.ltb_spec (Counter.count c) (RateLimitItem.amount item)),
               (Z.leb_spec (Counter.count c + 1) (RateLimitItem.amount item));
        split; reflexivity || lia.
  - rewrite (get_absent _ _ _ Hc). cbn [MongoDBStorage.incr_pipeline Counter.count].
    destruct (Z.ltb_spec 0 (RateLimitItem.amount item)),
             (Z.leb_spec 1 (RateLimitItem.amount item)); split; reflexivity || lia.
Qed.

(** ** Fixed windows over time *)

Lemma last_cons_default (l : list Z) (x d d' : Z) :
  List.last (x :: l) d = List.last (x :: l) d'.
Proof.
  revert x. induction l as [|y l IH]; intros x; [reflexivity|].
  change (List.last (y :: l) d = List.last (y :: l) d'). apply IH.
Qed.

Section FixedWindowRuns.
Variables (item : RateLimitItem.t) (identifiers : list string).

Lemma fixed_run_live (times : list Z) :
  forall (s : MongoDBStorage.t) c,
    MongoDBStorage.counters s !! RateLimitItem.key_for item identifiers = Some c ->
    Forall (fun t => t <= Counter.expireAt c) times ->
    fst (calls_at (fun t => FixedWindowRateLimiter.hit t item identifiers) times s) =
      answers (RateLimitItem.amount item) (length times) (Counter.count c) /\
    MongoDBStorage.counters
      (snd (calls_at (fun t => FixedWindowRateLimiter.hit t item identifiers) times s))
      !! RateLimitItem.key_for item identifiers =
      Some (Counter.mk (Counter.count c + Z.of_nat (length times)) (Counter.expireAt c)).
Proof.
  induction times as [|t ts IH]; intros s c Hc Hall.
  - cbn. rewrite Z.add_0_r. destruct c. split; [reflexivity | exact Hc].
  - apply Forall_cons in Hall as [Ht Hall].
    rewrite calls_at_cons, fixed_hit_unfold. cbn [fst snd answers length].
    pose proof (incr_lookup t (RateLimitItem.key_for item identifiers)
                  (RateLimitItem.get_expiry item) false s) as Hstored.
    rewrite incr_result.
    rewrite Hc, (incr_pipeline_live _ _ _ _ Ht) in Hstored |- *.
    destruct (IH _ _ Hstored Hall) as [IHa IHb]. cbn [Counter.count Counter.expireAt] in *.
    rewrite IHa, IHb. split; [reflexivity|]. do 2 f_equal. lia.
Qed.

Lemma elastic_run_live (times : list Z) :
  forall (s : MongoDBStorage.t) c,
    MongoDBStorage.counters s !! RateLimitItem.key_for item identifiers = Some c ->
    chained (RateLimitItem.get_expiry item) (Counter.expireAt c) times ->
    fst (calls_at (fun t => FixedWindowElasticExpiryRateLimiter.hit t item identifiers)
           times s) =
      answers (RateLimitItem.amount item) (length times) (Counter.count c) /\
    MongoDBStorage.counters
      (snd (calls_at (fun t => FixedWindowElasticExpiryRateLimiter.hit t item identifiers)
              times s))
      !! RateLimitItem.key_for item identifiers =
      Some (Counter.mk (Counter.count c + Z.of_nat (length times))
              (List.last (map (fun t => t + Clock.seconds (RateLimitItem.get_expiry item))
                              times)
                         (Counter.expireAt c))).
Proof.
  induction times as [|t ts IH]; intros s c Hc Hchain.
  - cbn. rewrite Z.add_0_r. destruct c. split; [reflexivity | exact Hc].
  - destruct Hchain as [Ht Hchain].
    rewrite calls_at_cons, elastic_hit_unfold. cbn [fst snd answers length].
    pose proof (incr_lookup t (RateLimitItem.key_for item identifiers)
                  (RateLimitItem.get_expiry item) true s) as Hstored.
    rewrite incr_result.
    rewrite Hc, (incr_pipeline_live _ _ _ _ Ht) in Hstored |- *.
    destruct (IH _ _ Hstored Hchain) as [IHa IHb].
    cbn [Counter.count Counter.expireAt] in *.
    rewrite IHa, IHb. split; [reflexivity|]. f_equal. f_equal; [lia|].
    destruct ts as [|z ts]; [reflexivity|].
    cbn [map]. rewrite (last_cons_default _ _ _ (Counter.expireAt c)). reflexivity.
Qed.

Lemma last_shifted (f : Z -> Z) (ts : list Z) (t : Z) :
  List.last (map f ts) (f t) = f (List.last ts t).
Proof.
  induction ts as [|x ts IH]; [reflexivity|].
  cbn [map]. destruct ts as [|y ts]; [reflexivity|]. exact IH.
Qed.
End FixedWindowRuns.

Lemma fixed_run_fresh item identifiers t0 ts (s : MongoDBStorage.t) :
  (MongoDBStorage.counters s !! RateLimitItem.key_for item identifiers = None \/
   exists c, MongoDBStorage.counters s !! RateLimitItem.key_for item identifiers = Some c /\
             Counter.expireAt c < t0) ->
  Forall (fun t => t <= t0 + Clock.seconds (RateLimitItem.get_expiry item)) ts ->
  fst (calls_at (fun t => FixedWindowRateLimiter.hit t item identifiers) (t0 :: ts) s) =
    answers (RateLimitItem.amount item) (S (length ts)) 0 /\
  MongoDBStorage.counters
    (snd (calls_at (fun t => FixedWindowRateLimiter.hit t item identifiers) (t0 :: ts) s))
    !! RateLimitItem.key_for item identifiers =
    Some (Counter.mk (Z.of_nat (S (length ts)))
            (t0 + Clock.seconds (RateLimitItem.get_expiry item))).
Proof.
  intros Hfresh Hall.
  rewrite calls_at_cons, fixed_hit_unfold. cbn [fst snd answers].
  pose proof (incr_lookup t0 (RateLimitItem.key_for item identifiers)
                (RateLimitItem.get_expiry item) false s) as Hstored.
  rewrite incr_result. rewrite (incr_pipeline_fresh _ _ _ _ Hfresh) in Hstored |- *.
  destruct (fixed_run_live item identifiers ts _ _ Hstored Hall) as [Ha Hb].
  cbn [Counter.count Counter.expireAt] in *.
  rewrite Ha, Hb. split; [reflexivity|]. do 2 f_equal. lia.
Qed.

Lemma elastic_run_fresh item identifiers t0 ts (s : MongoDBStorage.t) :
  (MongoDBStorage.counters s !! RateLimitItem.key_for item identifiers = None \/
   exists c, MongoDBStorage.counters s !! RateLimitItem.key_for item identifiers = Some c /\
             Counter.expireAt c < t0) ->
  chained (RateLimitItem.get_expiry item)
          (t0 + Clock.seconds (RateLimitItem.get_expiry item)) ts ->
  fst (calls_at (fun t => FixedWindowElasticExpiryRateLimiter.hit t item identifiers)
         (t0 :: ts) s) =
    answers (RateLimitItem.amount item) (S (length ts)) 0 /\
  MongoDBStorage.counters
    (snd (calls_at (fun t => FixedWindowElasticExpiryRateLimiter.hit t item identifiers)
            (t0 :: ts) s))
    !! RateLimitItem.key_for item identifiers =
    Some (Counter.mk (Z.of_nat (S (length ts)))
            (last_reading t0 ts + Clock.seconds (RateLimitItem.get_expiry item))).
Proof.
  intros Hfresh Hchain.
  rewrite calls_at_cons, elastic_hit_unfold. cbn [fst snd answers].
  pose proof (incr_lookup t0 (RateLimitItem.key_for item identifiers)
                (RateLimitItem.get_expiry item) true s) as Hstored.
  rewrite incr_result. rewrite (incr_pipeline_fresh _ _ _ _ Hfresh) in Hstored |- *.
  destruct (elastic_run_live item identifiers ts _ _ Hstored Hchain) as [Ha Hb].
  cbn [Counter.count Counter.expireAt] in *.
  rewrite Ha, Hb. split; [reflexivity|]. unfold last_reading.
  rewrite (last_shifted
             (fun t => t + Clock.seconds (RateLimitItem.get_expiry item)) ts t0).
  do 2 f_equal. lia.
Qed.

(** X4. A fixed window is pinned to its first hit.  Starting where the key
    has no live counter, a hit at [t0] followed by any hits no later than
    [t0 + expiry] is answered true for the first [amount] of them and false
    for all the others; the counter holds the number of hits made, admitted
    or not, and its expiry, and with it the reset time reported by
    [get_window_stats], stays at [t0 + expiry]. *)
Theorem fixed_window_pinned_to_first_hit item identifiers t0 ts (s : MongoDBStorage.t) :
  0 <= RateLimitItem.amount item ->
  (MongoDBStorage.counters s !! RateLimitItem.key_for item identifiers = None \/
   exists c, MongoDBStorage.counters s !! RateLimitItem.key_for item identifiers = Some c /\
             Counter.expireAt c < t0) ->
  Forall (fun t => t <= t0 + Clock.seconds (RateLimitItem.get_expiry item)) ts ->
  let res := calls_at (fun t => FixedWindowRateLimiter.hit t item identifiers) (t0 :: ts) s in
  fst res =
    replicate (Nat.min (S (length ts)) (Z.to_nat (RateLimitItem.amount item))) true ++
    replicate (S (length ts) - Z.to_nat (RateLimitItem.amount item)) false /\
  MongoDBStorage.counters (snd res) !! RateLimitItem.key_for item identifiers =
    Some (Counter.mk (Z.of_nat (S (length ts)))
            (t0 + Clock.seconds (RateLimitItem.get_expiry item))) /\
  forall later,
    fst (fst (FixedWindowRateLimiter.get_window_stats later item identifiers (snd res))) =
    Clock.timegm t0 + RateLimitItem.get_expiry item.
Proof.
  intros Ha Hfresh Hall res.
  destruct (fixed_run_fresh item identifiers t0 ts s Hfresh Hall) as [Hres Hrec].
  fold res in Hres, Hrec.
  split; [rewrite Hres; apply answers_shape, Ha|].
  split; [exact Hrec|].
  intros later. rewrite (fixed_stats_reset _ _ _ _ _ Hrec). cbn [Counter.expireAt].
  apply timegm_plus_seconds.
Qed.

Lemma fixed_window_pinned_to_first_hit_witness :
  fst (calls_at (fun t => FixedWindowRateLimiter.hit t Sample.two_per_minute [])
         [Sample.T 0; Sample.T 30; Sample.T 60] MongoDBStorage.empty) =
  [true; true; false].
Proof.
  apply (fixed_window_pinned_to_first_hit Sample.two_per_minute [] (Sample.T 0)
           [Sample.T 30; Sample.T 60] MongoDBStorage.empty).
  - vm_compute; discriminate.
  - left; reflexivity.
  - repeat constructor; vm_compute; discriminate.
Defined.

(** X5. Once the expiry of a fixed window has passed, the next hit opens a
    new window as if the key had never been hit: whatever was counted in the
    old window, the hits of the new one are again answered true for the
    first [amount] and false afterwards, and the counter restarts at the
    number of hits of the new window. *)
Theorem fixed_window_reopens_after_expiry item identifiers t0 ts t1 ts'
    (s : MongoDBStorage.t) :
  0 <= RateLimitItem.amount item ->
  (MongoDBStorage.counters s !! RateLimitItem.key_for item identifiers = None \/
   exists c, MongoDBStorage.counters s !! RateLimitItem.key_for item identifiers = Some c /\
             Counter.expireAt c < t0) ->
  Forall (fun t => t <= t0 + Clock.seconds (RateLimitItem.get_expiry item)) ts ->
  t0 + Clock.seconds (RateLimitItem.get_expiry item) < t1 ->
  Forall (fun t => t <= t1 + Clock.seconds (RateLimitItem.get_expiry item)) ts' ->
  let first := calls_at (fun t => FixedWindowRateLimiter.hit t item identifiers) (t0 :: ts) s in
  let second :=
    calls_at (fun t => FixedWindowRateLimiter.hit t item identifiers) (t1 :: ts') (snd first) in
  fst second =
    replicate (Nat.min (S (length ts')) (Z.to_nat (RateLimitItem.amount item))) true ++
    replicate (S (length ts') - Z.to_nat (RateLimitItem.amount item)) false /\
  MongoDBStorage.counters (snd second) !! RateLimitItem.key_for item identifiers =
    Some (Counter.mk (Z.of_nat (S (length ts')))
            (t1 + Clock.seconds (RateLimitItem.get_expiry item))).
Proof.
  intros Ha Hfresh Hall Hgap Hall' first second.
  destruct (fixed_run_fresh item identifiers t0 ts s Hfresh Hall) as [_ Hrec].
  fold first in Hrec.
  destruct (fixed_run_fresh item identifiers t1 ts' (snd first)) as [Hres' Hrec'].
  { right. eexists. split; [exact Hrec | exact Hgap]. }
  { exact Hall'. }
  fold second in Hres', Hrec'.
  split; [rewrite Hres'; apply answers_shape, Ha | exact Hrec'].
Qed.

Lemma fixed_window_reopens_after_expiry_witness :
  fst (calls_at (fun t => FixedWindowRateLimiter.hit t Sample.two_per_minute [])
         [Sample.T 61; Sample.T 62; Sample.T 63]
         (snd (calls_at (fun t => FixedWindowRateLimiter.hit t Sample.two_per_minute [])
                 [Sample.T 0; Sample.T 30; Sample.T 60] MongoDBStorage.empty))) =
  [true; true; false].
Proof.
  apply (fixed_window_reopens_after_expiry Sample.two_per_minute [] (Sample.T 0)
           [Sample.T 30; Sample.T 60] (Sample.T 61) [Sample.T 62; Sample.T 63]
           MongoDBStorage.empty).
  - vm_compute; discriminate.
  - left; reflexivity.
  - repeat constructor; vm_compute; discriminate.
  - reflexivity.
  - repeat constructor; vm_compute; discriminate.
Defined.

(** X6. An elastic window stays closed while hits keep coming.  Starting
    where the key has no live counter, when every hit comes no later than
    [expiry] seconds after the one before it, only the first [amount] hits
    are answered true, however long the run lasts; the counter holds the
    number of hits made and its expiry is [expiry] seconds after the last
    hit, which is what [get_window_stats] reports as the reset time. *)
Theorem elastic_window_stays_closed item identifiers t0 ts (s : MongoDBStorage.t) :
  0 <= RateLimitItem.amount item ->
  (MongoDBStorage.counters s !! RateLimitItem.key_for item identifiers = None \/
   exists c, MongoDBStorage.counters s !! RateLimitItem.key_for item identifiers = Some c /\
             Counter.expireAt c < t0) ->
  chained (RateLimitItem.get_expiry item)
          (t0 + Clock.seconds (RateLimitItem.get_expiry item)) ts ->
  let res :=
    calls_at (fun t => FixedWindowElasticExpiryRateLimiter.hit t item identifiers)
             (t0 :: ts) s in
  fst res =
    replicate (Nat.min (S (length ts)) (Z.to_nat (RateLimitItem.amount item))) true ++
    replicate (S (length ts) - Z.to_nat (RateLimitItem.amount item)) false /\
  MongoDBStorage.counters (snd res) !! RateLimitItem.key_for item identifiers =
    Some (Counter.mk (Z.of_nat (S (length ts)))
            (last_reading t0 ts + Clock.seconds (RateLimitItem.get_expiry item))) /\
  forall later,
    fst (fst (FixedWindowElasticExpiryRateLimiter.get_window_stats later item identifiers
                (snd res))) =
    Clock.timegm (last_reading t0 ts) + RateLimitItem.get_expiry item.
Proof.
  intros Ha Hfresh Hchain res.
  destruct (elastic_run_fresh item identifiers t0 ts s Hfresh Hchain) as [Hres Hrec].
  fold res in Hres, Hrec.
  split; [rewrite Hres; apply answers_shape, Ha|].
  split; [exact Hrec|].
  intros later. unfold FixedWindowElasticExpiryRateLimiter.get_window_stats.
  rewrite (fixed_stats_reset _ _ _ _ _ Hrec). cbn [Counter.expireAt].
  apply timegm_plus_seconds.
Qed.

Lemma elastic_window_stays_closed_witness :
  fst (calls_at (fun t => FixedWindowElasticExpiryRateLimiter.hit t Sample.two_per_minute [])
         [Sample.T 0; Sample.T 50; Sample.T 100; Sample.T 150] MongoDBStorage.empty) =
  [true; true; false; false].
Proof.
  apply (elastic_window_stays_closed Sample.two_per_minute [] (Sample.T 0)
           [Sample.T 50; Sample.T 100; Sample.T 150] MongoDBStorage.empty).
  - vm_compute; discriminate.
  - left; reflexivity.
  - cbn. repeat split; vm_compute; discriminate.
Defined.

(** ** The moving window over time *)

Lemma get_moving_window_result now key limit expiry s :
  fst (MongoDBStorage.get_moving_window now key limit expiry s) =
  match in_window now expiry (stored_entries key s) with
  | [] => (Clock.int now, 0)
  | e :: es => (Clock.int (foldr Z.max e es), window_count now key expiry s)
  end.
Proof.
  unfold MongoDBStorage.get_moving_window, window_count.
  rewrite aggregate_stored. fold (in_window now expiry (stored_entries key s)).
  destruct (in_window now expiry (stored_entries key s)) as [|e es]; [reflexivity|].
  cbn [fst]. rewrite foldl_max_foldr. reflexivity.
Qed.

Lemma get_moving_window_count now key limit expiry s :
  snd (fst (MongoDBStorage.get_moving_window now key limit expiry s)) =
  window_count now key expiry s.
Proof.
  rewrite get_moving_window_result. unfold window_count.
  destruct (in_window now expiry (stored_entries key s)); reflexivity.
Qed.

Lemma moving_hit_unfold now item identifiers (s : MongoDBStorage.t) :
  MovingWindowRateLimiter.hit now item identifiers s =
  MongoDBStorage.acquire_entry now (RateLimitItem.key_for item identifiers)
    (RateLimitItem.amount item) (RateLimitItem.get_expiry item) s.
Proof. reflexivity. Qed.

(** X7. In every storage the program can be in, and for an item with a
    positive amount, the moving window [test] answers what a [hit] at the
    same clock reading would answer. *)
Theorem moving_test_predicts_hit now item identifiers (s : MongoDBStorage.t) :
  reachable now s ->
  0 < RateLimitItem.amount item ->
  fst (MovingWindowRateLimiter.test now item identifiers s) =
  fst (MovingWindowRateLimiter.hit now item identifiers s).
Proof.
  intros Hreach Ha.
  destruct (stored_entries_inv now (RateLimitItem.key_for item identifiers) s
              (reachable_windows_inv _ _ Hreach)) as [Hd _].
  pose proof (acquire_entry_admits_iff now (RateLimitItem.key_for item identifiers)
                (RateLimitItem.amount item) (RateLimitItem.get_expiry item) s Ha Hd)
    as Hiff.
  rewrite moving_test_unfold, moving_hit_unfold. cbn [fst].
  rewrite get_moving_window_count.
  destruct (Z.ltb_spec (window_count now (RateLimitItem.key_for item identifiers)
                          (RateLimitItem.get_expiry item) s)
                       (RateLimitItem.amount item)) as [Hlt|Hge].
  - symmetry. apply Hiff, Hlt.
  - destruct (fst (MongoDBStorage.acquire_entry _ _ _ _ s)); [|reflexivity].
    assert (window_count now (RateLimitItem.key_for item identifiers)
              (RateLimitItem.get_expiry item) s < RateLimitItem.amount item)
      by (apply Hiff; reflexivity).
    lia.
Qed.

Lemma moving_test_predicts_hit_witness :
  fst (MovingWindowRateLimiter.test (Sample.T 25)
         (RateLimitItem.mk 2 60 (fun _ => "k")) [] Sample.two_hits) =
  fst (MovingWindowRateLimiter.hit (Sample.T 25)
         (RateLimitItem.mk 2 60 (fun _ => "k")) [] Sample.two_hits).
Proof.
  apply (moving_test_predicts_hit (Sample.T 25) (RateLimitItem.mk 2 60 (fun _ => "k")) []
           Sample.two_hits reachable_two_hits).
  reflexivity.
Defined.

(** *** Entries inside the window of a record kept newest first *)

Lemma in_window_cons now expiry e (es : list Z) :
  in_window now expiry (e :: es) =
  if decide (now - Clock.seconds expiry <= e) then e :: in_window now expiry es
  else in_window now expiry es.
Proof. unfold in_window. rewrite filter_cons. reflexivity. Qed.

Lemma in_window_length_later now now' expiry (es : list Z) :
  now <= now' ->
  (length (in_window now' expiry es) <= length (in_window now expiry es))%nat.
Proof.
  intros Hle. induction es as [|e es IH]; [reflexivity|].
  rewrite !in_window_cons.
  destruct (decide (now' - Clock.seconds expiry <= e)),
           (decide (now - Clock.seconds expiry <= e)); cbn [length]; lia.
Qed.

(** The entries cut off behind position [n] lie outside the window as soon
    as at most [n] entries lie inside it. *)
Lemma in_window_take now expiry n (es : list Z) :
  descending es ->
  (length (in_window now expiry es) <= n)%nat ->
  in_window now expiry (take n es) = in_window now expiry es.
Proof.
  intros Hd. revert n. induction es as [|e es IH]; intros n Hlen.
  - rewrite take_nil. reflexivity.
  - apply descending_cons in Hd as [Hall Hd].
    rewrite in_window_cons in Hlen |- *.
    destruct (decide (now - Clock.seconds expiry <= e)) as [Hin|Hout].
    + destruct n as [|n]; [cbn in Hlen; lia|].
      cbn [take length] in *. rewrite in_window_cons.
      destruct (decide (now - Clock.seconds expiry <= e)); [|lia].
      rewrite IH by (assumption || lia). reflexivity.
    + assert (Hbelow : Forall (fun x => x < now - Clock.seconds expiry) es)
        by (eapply Forall_impl; [exact Hall|]; cbn; intros; lia).
      unfold in_window at 2. rewrite (filter_none_below _ _ Hbelow).
      destruct n as [|n]; [reflexivity|].
      cbn [take]. rewrite in_window_cons.
      destruct (decide (now - Clock.seconds expiry <= e)); [lia|].
      unfold in_window. apply filter_none_below, Forall_take, Hbelow.
Qed.

Lemma last_cons_reading (x d : Z) (xs : list Z) :
  List.last (x :: xs) d = List.last xs x.
Proof.
  destruct xs as [|y ys]; [reflexivity|].
  change (List.last (y :: ys) d = List.last (y :: ys) x). apply last_cons_default.
Qed.

Lemma last_reading_bound now t (ts : list Z) :
  t <= now -> Forall (fun x => x <= now) ts -> last_reading t ts <= now.
Proof.
  unfold last_reading. intros Ht Hall. revert t Ht.
  induction Hall as [|x xs Hx _ IH]; intros t Ht; [exact Ht|].
  rewrite last_cons_reading. apply IH, Hx.
Qed.

Lemma log_inv_later key limit expiry now now' s log :
  now <= now' -> log_inv key limit expiry now s log -> log_inv key limit expiry now' s log.
Proof.
  intros Hle (Hst & Hd & Hall & Hcount). repeat split; [exact Hst | exact Hd | |].
  - eapply Forall_impl; [exact Hall|]. cbn. intros; lia.
  - pose proof (in_window_length_later now now' expiry log Hle). lia.
Qed.

Lemma log_inv_acquire_entry key limit expiry now s log :
  0 < limit ->
  log_inv key limit expiry now s log ->
  log_inv key limit expiry now
    (snd (MongoDBStorage.acquire_entry now key limit expiry s))
    (if fst (MongoDBStorage.acquire_entry now key limit expiry s)
     then now :: log else log).
Proof.
  intros Hlimit (Hst & Hd & Hall & Hcount).
  assert (Hat : MongoDBStorage.entries_at (limit - 1) (stored_entries key s) =
                MongoDBStorage.entries_at (limit - 1) log).
  { rewrite Hst. unfold MongoDBStorage.entries_at.
    destruct (0 <=? limit - 1); [|reflexivity]. apply lookup_take_lt. lia. }
  pose proof (not_gte_iff_count (now - Clock.seconds expiry) limit log Hlimit Hd) as Hiff.
  unfold log_inv. rewrite stored_entries_acquire_entry, acquire_entry_unfold, Hat.
  destruct (MongoDBStorage.not_gte _ _) eqn:Hc; cbn [fst snd].
  - assert (Hlt : Z.of_nat (length (in_window now expiry log)) < limit)
      by (apply Hiff; reflexivity).
    repeat split.
    + rewrite Hst. unfold MongoDBStorage.push_front, MongoDBStorage.slice.
      destruct (Z.leb_spec 0 limit); [|lia].
      destruct (Z.to_nat limit) as [|n] eqn:Hn; [lia|].
      cbn [take]. rewrite take_take. f_equal. f_equal. lia.
    + apply descending_cons. split; assumption.
    + constructor; [lia | exact Hall].
    + rewrite in_window_cons.
      destruct (decide (now - Clock.seconds expiry <= now)); cbn [length]; lia.
  - repeat split; assumption.
Qed.

Lemma log_inv_run item identifiers (times : list Z) :
  0 < RateLimitItem.amount item ->
  forall t (s : MongoDBStorage.t) log,
    Sorted Z.le (t :: times) ->
    log_inv (RateLimitItem.key_for item identifiers) (RateLimitItem.amount item)
            (RateLimitItem.get_expiry item) t s log ->
    log_inv (RateLimitItem.key_for item identifiers) (RateLimitItem.amount item)
            (RateLimitItem.get_expiry item) (last_reading t times)
            (snd (calls_at (fun t => MovingWindowRateLimiter.hit t item identifiers) times s))
            (reverse (admitted times
                        (fst (calls_at (fun t => MovingWindowRateLimiter.hit t item identifiers)
                                times s))) ++ log).
Proof.
  intros Ha. induction times as [|x xs IH]; intros t s log Hsorted Hinv.
  - exact Hinv.
  - apply Sorted_inv in Hsorted as [Hsorted Hhd]. apply HdRel_inv in Hhd.
    rewrite calls_at_cons. cbn [fst snd]. unfold last_reading.
    rewrite last_cons_reading. fold (last_reading x xs).
    rewrite moving_hit_unfold.
    pose proof (log_inv_acquire_entry _ _ _ _ _ _ Ha (log_inv_later _ _ _ _ _ _ _ Hhd Hinv))
      as Hstep.
    specialize (IH x _ _ Hsorted Hstep).
    destruct (fst (MongoDBStorage.acquire_entry x _ _ _ s)); cbn [admitted].
    + rewrite reverse_cons, <- app_assoc. exact IH.
    + exact IH.
Qed.

Lemma log_inv_from_absent item identifiers (times : list Z) now (s : MongoDBStorage.t) :
  0 < RateLimitItem.amount item ->
  MongoDBStorage.windows s !! RateLimitItem.key_for item identifiers = None ->
  Sorted Z.le times ->
  Forall (fun t => t <= now) times ->
  log_inv (RateLimitItem.key_for item identifiers) (RateLimitItem.amount item)
          (RateLimitItem.get_expiry item) now
          (snd (calls_at (fun t => MovingWindowRateLimiter.hit t item identifiers) times s))
          (reverse (admitted times
                      (fst (calls_at (fun t => MovingWindowRateLimiter.hit t item identifiers)
                              times s)))).
Proof.
  intros Ha Hnone Hsorted Hall.
  assert (Hnil : forall t, log_inv (RateLimitItem.key_for item identifiers)
                   (RateLimitItem.amount item) (RateLimitItem.get_expiry item) t s []).
  { intros t. unfold log_inv, stored_entries. rewrite Hnone, take_nil.
    repeat split; try constructor. cbn. lia. }
  destruct times as [|t0 ts]; [apply Hnil|].
  apply Forall_cons in Hall as [Ht0 Hall].
  pose proof (log_inv_run item identifiers (t0 :: ts) Ha t0 s []) as Hrun.
  rewrite app_nil_r in Hrun.
  apply (log_inv_later _ _ _ (last_reading t0 (t0 :: ts))).
  - apply last_reading_bound; [exact Ht0|]. constructor; assumption.
  - apply Hrun; [|apply Hnil]. constructor; [exact Hsorted | constructor; lia].
Qed.

Lemma in_window_reverse_length now expiry (l : list Z) :
  length (in_window now expiry (reverse l)) = length (in_window now expiry l).
Proof. unfold in_window. rewrite filter_reverse. apply length_reverse. Qed.

(** X8. The moving window never admits more than [amount] hits inside any
    trailing window.  For hits made at clock readings that never decrease,
    on a key that had no record, the admitted hits with a timestamp
    [>= now - expiry] number at most [amount], at every clock reading [now]
    from the last hit on. *)
Theorem moving_window_never_over_admits item identifiers times now
    (s : MongoDBStorage.t) :
  0 < RateLimitItem.amount item ->
  MongoDBStorage.windows s !! RateLimitItem.key_for item identifiers = None ->
  Sorted Z.le times ->
  Forall (fun t => t <= now) times ->
  let results :=
    fst (calls_at (fun t => MovingWindowRateLimiter.hit t item identifiers) times s) in
  Z.of_nat (length (in_window now (RateLimitItem.get_expiry item) (admitted times results)))
    <= RateLimitItem.amount item.
Proof.
  intros Ha Hnone Hsorted Hall results.
  destruct (log_inv_from_absent item identifiers times now s Ha Hnone Hsorted Hall)
    as (_ & _ & _ & Hcount).
  fold results in Hcount. rewrite in_window_reverse_length in Hcount. exact Hcount.
Qed.

Lemma moving_window_never_over_admits_witness :
  Z.of_nat (length (in_window (Sample.T 30) 60
    (admitted [Sample.T 10; Sample.T 20; Sample.T 30]
       (fst (calls_at (fun t => MovingWindowRateLimiter.hit t Sample.two_per_minute [])
               [Sample.T 10; Sample.T 20; Sample.T 30] MongoDBStorage.empty))))) <= 2.
Proof.
  apply (moving_window_never_over_admits Sample.two_per_minute []
           [Sample.T 10; Sample.T 20; Sample.T 30] (Sample.T 30) MongoDBStorage.empty).
  - reflexivity.
  - reflexivity.
  - repeat constructor; vm_compute; discriminate.
  - repeat constructor; vm_compute; discriminate.
Defined.

(** X9. What the moving window limiter reports as remaining is the amount
    less the admitted hits still inside the window: after hits at clock
    readings that never decrease, on a key that had no record,
    [get_window_stats] at any later reading returns
    [amount - (number of admitted hits with timestamp >= now - expiry)],
    which is never negative; the entries cut off by the length cap are
    never among those counted. *)
Theorem moving_window_remaining_counts_admitted item identifiers times now
    (s : MongoDBStorage.t) :
  0 < RateLimitItem.amount item ->
  MongoDBStorage.windows s !! RateLimitItem.key_for item identifiers = None ->
  Sorted Z.le times ->
  Forall (fun t => t <= now) times ->
  let res := calls_at (fun t => MovingWindowRateLimiter.hit t item identifiers) times s in
  let remaining :=
    snd (fst (MovingWindowRateLimiter.get_window_stats now item identifiers (snd res))) in
  remaining =
    RateLimitItem.amount item -
    Z.of_nat (length (in_window now (RateLimitItem.get_expiry item)
                        (admitted times (fst res)))) /\
  0 <= remaining.
Proof.
  intros Ha Hnone Hsorted Hall res remaining.
  destruct (log_inv_from_absent item identifiers times now s Ha Hnone Hsorted Hall)
    as (Hst & Hd & _ & Hcount).
  fold res in Hst, Hd, Hcount.
  assert (Hrem : remaining =
            RateLimitItem.amount item -
            Z.of_nat (length (in_window now (RateLimitItem.get_expiry item)
                                (reverse (admitted times (fst res)))))).
  { subst remaining. rewrite moving_stats_unfold. cbn [fst snd].
    rewrite get_moving_window_count. unfold window_count.
    rewrite Hst, in_window_take by (assumption || lia). reflexivity. }
  rewrite in_window_reverse_length in Hrem, Hcount. split; [exact Hrem | lia].
Qed.

Lemma moving_window_remaining_counts_admitted_witness :
  snd (fst (MovingWindowRateLimiter.get_window_stats (Sample.T 75) Sample.two_per_minute []
              (snd (calls_at (fun t => MovingWindowRateLimiter.hit t Sample.two_per_minute [])
                      [Sample.T 10; Sample.T 20; Sample.T 30] MongoDBStorage.empty)))) =
  2 - Z.of_nat (length (in_window (Sample.T 75) 60
                  (admitted [Sample.T 10; Sample.T 20; Sample.T 30]
                     (fst (calls_at
                             (fun t => MovingWindowRateLimiter.hit t Sample.two_per_minute [])
                             [Sample.T 10; Sample.T 20; Sample.T 30]
                             MongoDBStorage.empty))))).
Proof.
  apply (moving_window_remaining_counts_admitted Sample.two_per_minute []
           [Sample.T 10; Sample.T 20; Sample.T 30] (Sample.T 75) MongoDBStorage.empty).
  - reflexivity.
  - reflexivity.
  - repeat constructor; vm_compute; discriminate.
  - repeat constructor; vm_compute; discriminate.
Defined.

Lemma foldr_max_top (m : Z) (es : list Z) :
  Forall (fun e => e <= m) es -> foldr Z.max m es = m.
Proof.
  induction 1 as [|e es He _ IH]; [reflexivity|]. cbn [foldr]. rewrite IH. lia.
Qed.

Lemma in_window_bounded now expiry bound (es : list Z) :
  Forall (fun e => e <= bound) es -> Forall (fun e => e <= bound) (in_window now expiry es).
Proof.
  intros Hall. unfold in_window. rewrite Forall_forall in Hall |- *.
  intros e [_ He]%list_elem_of_filter. apply Hall, He.
Qed.

(** X10. An admitted hit of the moving window uses up exactly one unit.  In
    every storage the program can be in, for a positive amount and a
    non-negative expiry, a hit answered true lowers the remaining capacity
    reported by [get_window_stats] by one and makes the reported reset time
    the whole second of the hit plus [expiry]; a hit answered false finds no
    capacity remaining and leaves the report as it was. *)
Theorem moving_hit_consumes_one now item identifiers (s : MongoDBStorage.t) :
  reachable now s ->
  0 < RateLimitItem.amount item ->
  0 <= RateLimitItem.get_expiry item ->
  let r := MovingWindowRateLimiter.hit now item identifiers s in
  let before := fst (MovingWindowRateLimiter.get_window_stats now item identifiers s) in
  let after := fst (MovingWindowRateLimiter.get_window_stats now item identifiers (snd r)) in
  (fst r = true ->
   after = (Clock.int now + RateLimitItem.get_expiry item, snd before - 1)) /\
  (fst r = false -> after = before /\ snd before <= 0).
Proof.
  intros Hreach Ha He. cbv zeta.
  rewrite moving_hit_unfold, !moving_stats_unfold. cbn [fst snd].
  rewrite !get_moving_window_count.
  set (key := RateLimitItem.key_for item identifiers).
  set (limit := RateLimitItem.amount item) in *.
  set (expiry := RateLimitItem.get_expiry item) in *.
  destruct (stored_entries_inv now key s (reachable_windows_inv _ _ Hreach)) as [Hd Hall].
  pose proof (acquire_entry_admits_iff now key limit expiry s Ha Hd) as Hiff.
  split.
  - intros Hadm. pose proof (proj1 Hiff Hadm) as Hlt. unfold window_count in Hlt.
    assert (Hstored : stored_entries key
                        (snd (MongoDBStorage.acquire_entry now key limit expiry s)) =
                      take (Z.to_nat limit) (now :: stored_entries key s)).
    { rewrite stored_entries_acquire_entry.
      rewrite acquire_entry_unfold in Hadm.
      destruct (MongoDBStorage.not_gte _ _); [|discriminate].
      unfold MongoDBStorage.push_front, MongoDBStorage.slice.
      destruct (Z.leb_spec 0 limit); [reflexivity | lia]. }
    assert (Hin : in_window now expiry (now :: stored_entries key s) =
                  now :: in_window now expiry (stored_entries key s)).
    { rewrite in_window_cons.
      destruct (decide (now - Clock.seconds expiry <= now)) as [|Hn]; [reflexivity|].
      exfalso. apply Hn. unfold Clock.seconds. pose proof usec_pos. nia. }
    assert (Hwin : in_window now expiry
                     (stored_entries key
                        (snd (MongoDBStorage.acquire_entry now key limit expiry s))) =
                   now :: in_window now expiry (stored_entries key s)).
    { rewrite Hstored, in_window_take; [exact Hin | |].
      - apply descending_cons. split; assumption.
      - rewrite Hin. cbn [length]. lia. }
    rewrite get_moving_window_result. unfold window_count. rewrite Hwin.
    cbn [fst snd]. rewrite foldr_max_top by (apply in_window_bounded, Hall).
    cbn [length]. f_equal. lia.
  - intros Hrej.
    assert (Hsame : snd (MongoDBStorage.acquire_entry now key limit expiry s) = s).
    { rewrite acquire_entry_unfold in Hrej |- *.
      destruct (MongoDBStorage.not_gte _ _); [discriminate | reflexivity]. }
    rewrite Hsame. split; [reflexivity|].
    destruct (Z.lt_ge_cases (window_count now key expiry s) limit) as [Hlt|Hge]; [|lia].
    apply Hiff in Hlt. congruence.
Qed.

Lemma moving_hit_consumes_one_witness :
  fst (MovingWindowRateLimiter.get_window_stats (Sample.T 75)
         (RateLimitItem.mk 2 60 (fun _ => "k")) []
         (snd (MovingWindowRateLimiter.hit (Sample.T 75)
                 (RateLimitItem.mk 2 60 (fun _ => "k")) [] Sample.two_hits))) =
  (Clock.int (Sample.T 75) + 60,
   snd (fst (MovingWindowRateLimiter.get_window_stats (Sample.T 75)
               (RateLimitItem.mk 2 60 (fun _ => "k")) [] Sample.two_hits)) - 1).
Proof.
  pose proof (moving_hit_consumes_one (Sample.T 75)
                (RateLimitItem.mk 2 60 (fun _ => "k")) [] Sample.two_hits) as H.
  cbv zeta in H. destruct H as [Hadm _].
  - apply (reach_wait (Sample.T 25)); [exact reachable_two_hits | vm_compute; discriminate].
  - reflexivity.
  - vm_compute; discriminate.
  - apply Hadm. reflexivity.
Defined.

(** ** [clear] and [reset] *)

Lemma acquire_entry_counters now key limit expiry s :
  MongoDBStorage.counters (snd (MongoDBStorage.acquire_entry now key limit expiry s)) =
  MongoDBStorage.counters s.
Proof.
  rewrite acquire_entry_unfold. destruct (MongoDBStorage.not_gte _ _); reflexivity.
Qed.

Lemma get_depends_on_counter now key s s' :
  MongoDBStorage.counters s !! key = MongoDBStorage.counters s' !! key ->
  fst (MongoDBStorage.get now key s) = fst (MongoDBStorage.get now key s') /\
  fst (MongoDBStorage.get_expiry now key s) = fst (MongoDBStorage.get_expiry now key s') /\
  forall expiry elastic,
    fst (MongoDBStorage.incr now key expiry elastic s) =
    fst (MongoDBStorage.incr now key expiry elastic s').
Proof.
  intros H. unfold MongoDBStorage.get, MongoDBStorage.find_unexpired,
    MongoDBStorage.get_expiry, MongoDBStorage.incr. cbn [fst]. rewrite H.
  repeat split; reflexivity.
Qed.

Lemma window_calls_depend_on_record now key limit expiry s s' :
  MongoDBStorage.windows s !! key = MongoDBStorage.windows s' !! key ->
  fst (MongoDBStorage.get_moving_window now key limit expiry s) =
    fst (MongoDBStorage.get_moving_window now key limit expiry s') /\
  fst (MongoDBStorage.acquire_entry now key limit expiry s) =
    fst (MongoDBStorage.acquire_entry now key limit expiry s').
Proof.
  intros H.
  assert (Hst : stored_entries key s = stored_entries key s')
    by (unfold stored_entries; rewrite H; reflexivity).
  rewrite !get_moving_window_result, !acquire_entry_unfold.
  unfold window_count. rewrite Hst. split; [reflexivity|].
  destruct (MongoDBStorage.not_gte _ _); reflexivity.
Qed.

(** X11. [clear] removes the counter and the window record of its key and
    touches no other key: for every other key, [get], [get_expiry],
    [get_moving_window], [incr] and [acquire_entry] answer after the call
    what they answer without it. *)
Theorem clear_only_its_key key (s : MongoDBStorage.t) :
  let cleared := snd (MongoDBStorage.clear key s) in
  MongoDBStorage.counters cleared !! key = None /\
  MongoDBStorage.windows cleared !! key = None /\
  forall k now limit expiry elastic,
    k <> key ->
    fst (MongoDBStorage.get now k cleared) = fst (MongoDBStorage.get now k s) /\
    fst (MongoDBStorage.get_expiry now k cleared) =
      fst (MongoDBStorage.get_expiry now k s) /\
    fst (MongoDBStorage.incr now k expiry elastic cleared) =
      fst (MongoDBStorage.incr now k expiry elastic s) /\
    fst (MongoDBStorage.get_moving_window now k limit expiry cleared) =
      fst (MongoDBStorage.get_moving_window now k limit expiry s) /\
    fst (MongoDBStorage.acquire_entry now k limit expiry cleared) =
      fst (MongoDBStorage.acquire_entry now k limit expiry s).
Proof.
  cbn zeta. cbn [snd MongoDBStorage.clear].
  split; [cbn; apply lookup_delete_eq|].
  split; [cbn; apply lookup_delete_eq|].
  intros k now limit expiry elastic Hk.
  set (cleared := MongoDBStorage.mk (delete key (MongoDBStorage.counters s))
                                    (delete key (MongoDBStorage.windows s))).
  assert (Hc : MongoDBStorage.counters cleared !! k = MongoDBStorage.counters s !! k)
    by (cbn; apply lookup_delete_ne; congruence).
  assert (Hw : MongoDBStorage.windows cleared !! k = MongoDBStorage.windows s !! k)
    by (cbn; apply lookup_delete_ne; congruence).
  destruct (get_depends_on_counter now k cleared s Hc) as (Hget & Hexp & Hincr).
  destruct (window_calls_depend_on_record now k limit expiry cleared s Hw) as [Hgmw Hacq].
  repeat split; auto.
Qed.

Lemma clear_only_its_key_witness :
  fst (MongoDBStorage.get (Sample.T 1) "k"
         (snd (MongoDBStorage.clear "other" Sample.exhausted))) =
  fst (MongoDBStorage.get (Sample.T 1) "k" Sample.exhausted).
Proof.
  pose proof (clear_only_its_key "other" Sample.exhausted) as H. cbv zeta in H.
  destruct H as (_ & _ & Hframe).
  destruct (Hframe "k" (Sample.T 1) 0 0 false) as [Hget _]; [discriminate | exact Hget].
Defined.

(** X12. [reset] returns the number of counter documents plus the number of
    window documents and leaves nothing behind: a second [reset] returns 0,
    and every item with a positive amount is back at full capacity, its next
    hit being admitted under each of the three strategies. *)
Theorem reset_restores_full_capacity now item identifiers (s : MongoDBStorage.t) :
  0 < RateLimitItem.amount item ->
  let r := MongoDBStorage.reset s in
  fst r = Z.of_nat (size (MongoDBStorage.counters s)) +
          Z.of_nat (size (MongoDBStorage.windows s)) /\
  fst (MongoDBStorage.reset (snd r)) = 0 /\
  fst (FixedWindowRateLimiter.get_window_stats now item identifiers (snd r)) =
    (Clock.timegm now, RateLimitItem.amount item) /\
  fst (MovingWindowRateLimiter.get_window_stats now item identifiers (snd r)) =
    (Clock.int now + RateLimitItem.get_expiry item, RateLimitItem.amount item) /\
  fst (FixedWindowRateLimiter.hit now item identifiers (snd r)) = true /\
  fst (FixedWindowElasticExpiryRateLimiter.hit now item identifiers (snd r)) = true /\
  fst (MovingWindowRateLimiter.hit now item identifiers (snd r)) = true.
Proof.
  intros Ha r. subst r. cbn [fst snd MongoDBStorage.reset].
  split; [reflexivity|]. split; [reflexivity|].
  rewrite fixed_stats_unfold, moving_stats_unfold, fixed_hit_unfold, elastic_hit_unfold,
    moving_hit_unfold, acquire_entry_unfold. cbn [fst snd].
  rewrite get_moving_window_result, !incr_result.
  unfold stored_entries, MongoDBStorage.get_expiry, MongoDBStorage.get,
    MongoDBStorage.find_unexpired.
  cbn [MongoDBStorage.counters MongoDBStorage.windows]. rewrite !lookup_empty.
  rewrite entries_at_nil. cbn.
  destruct (Z.leb_spec 1 (RateLimitItem.amount item)); [|lia].
  repeat split; f_equal; lia.
Qed.

Lemma reset_restores_full_capacity_witness :
  fst (FixedWindowRateLimiter.get_window_stats (Sample.T 3) Sample.per_minute []
         (snd (MongoDBStorage.reset Sample.exhausted))) = (3, 10).
Proof.
  pose proof (reset_restores_full_capacity (Sample.T 3) Sample.per_minute []
                Sample.exhausted) as H.
  cbv zeta in H. destruct H as (_ & _ & Hstats & _); [reflexivity | exact Hstats].
Defined.

(** ** Counters and windows *)

(** X13. The fixed window and the moving window keep their state apart,
    also under one key: a moving window hit changes nothing that the fixed
    window [test] and [get_window_stats] report, and a fixed window hit,
    plain or elastic, changes nothing that the moving window [test] and
    [get_window_stats] report. *)
Theorem strategies_do_not_interfere now now' item identifiers item' identifiers'
    (s : MongoDBStorage.t) :
  let moved := snd (MovingWindowRateLimiter.hit now' item' identifiers' s) in
  let fixed := snd (FixedWindowRateLimiter.hit now' item' identifiers' s) in
  let elastic := snd (FixedWindowElasticExpiryRateLimiter.hit now' item' identifiers' s) in
  (fst (FixedWindowRateLimiter.test now item identifiers moved) =
     fst (FixedWindowRateLimiter.test now item identifiers s) /\
   fst (FixedWindowRateLimiter.get_window_stats now item identifiers moved) =
     fst (FixedWindowRateLimiter.get_window_stats now item identifiers s)) /\
  (fst (MovingWindowRateLimiter.test now item identifiers fixed) =
     fst (MovingWindowRateLimiter.test now item identifiers s) /\
   fst (MovingWindowRateLimiter.get_window_stats now item identifiers fixed) =
     fst (MovingWindowRateLimiter.get_window_stats now item identifiers s)) /\
  (fst (MovingWindowRateLimiter.test now item identifiers elastic) =
     fst (MovingWindowRateLimiter.test now item identifiers s) /\
   fst (MovingWindowRateLimiter.get_window_stats now item identifiers elastic) =
     fst (MovingWindowRateLimiter.get_window_stats now item identifiers s)).
Proof.
  cbv zeta.
  rewrite moving_hit_unfold, fixed_hit_unfold, elastic_hit_unfold. cbn [snd].
  rewrite !fixed_test_unfold, !fixed_stats_unfold, !moving_test_unfold,
    !moving_stats_unfold. cbn [fst snd].
  split; [|split].
  - destruct (get_depends_on_counter now (RateLimitItem.key_for item identifiers)
                (snd (MongoDBStorage.acquire_entry now'
                        (RateLimitItem.key_for item' identifiers')
                        (RateLimitItem.amount item') (RateLimitItem.get_expiry item') s)) s)
      as (Hget & Hexp & _); [rewrite acquire_entry_counters; reflexivity|].
    rewrite Hget, Hexp. split; reflexivity.
  - destruct (window_calls_depend_on_record now (RateLimitItem.key_for item identifiers)
                (RateLimitItem.amount item) (RateLimitItem.get_expiry item)
                (snd (MongoDBStorage.incr now' (RateLimitItem.key_for item' identifiers')
                        (RateLimitItem.get_expiry item') false s)) s)
      as [Hgmw _]; [reflexivity|].
    rewrite Hgmw. split; reflexivity.
  - destruct (window_calls_depend_on_record now (RateLimitItem.key_for item identifiers)
                (RateLimitItem.amount item) (RateLimitItem.get_expiry item)
                (snd (MongoDBStorage.incr now' (RateLimitItem.key_for item' identifiers')
                        (RateLimitItem.get_expiry item') true s)) s)
      as [Hgmw _]; [reflexivity|].
    rewrite Hgmw. split; reflexivity.
Qed.

(** ** Client options *)

Lemma setdefault_lookup k v (d : gmap string PyValue.t) j :
  MongoClientOptions.setdefault k v d !! j =
  match d !! j with
  | Some x => Some x
  | None => if decide (k = j) then Some v else None
  end.
Proof.
  unfold MongoClientOptions.setdefault.
  destruct (d !! k) eqn:Hk.
  - destruct (d !! j) eqn:Hj; [reflexivity|].
    destruct (decide (k = j)) as [->|]; [congruence | reflexivity].
  - rewrite lookup_insert. destruct (decide (k = j)) as [->|].
    + rewrite Hk. reflexivity.
    + destruct (d !! j); reflexivity.
Qed.

(** X14. The options handed to the client are the caller's options completed
    by [DEFAULT_OPTIONS]: an option the caller gave keeps the caller's
    value, also when it is one of the three timeouts; a timeout the caller
    did not give is 1000; no other option is added. *)
Theorem mongo_opts_keep_caller_values (options : gmap string PyValue.t) (k : string) :
  MongoClientOptions.mongo_opts options !! k =
  match options !! k with
  | Some v => Some v
  | None =>
      if decide (k ∈ ["serverSelectionTimeoutMS"; "socketTimeoutMS"; "connectTimeoutMS"])
      then Some (PyValue.int 1000)
      else None
  end.
Proof.
  unfold MongoClientOptions.mongo_opts, MongoClientOptions.DEFAULT_OPTIONS.
  cbn [foldl fst snd]. rewrite !setdefault_lookup.
  destruct (options !! k); [reflexivity|].
  destruct (decide (k ∈ _)) as [Hin|Hout].
  - repeat (apply elem_of_cons in Hin as [->|Hin]; [reflexivity|]).
    apply elem_of_nil in Hin. destruct Hin.
  - repeat (destruct (decide (_ = k)) as [<-|_];
            [exfalso; apply Hout; rewrite !elem_of_cons; auto|]).
    reflexivity.
Qed.

(** ** Counters on reachable storages *)

Lemma reachable_counts_positive now s :
  reachable now s ->
  forall k c, MongoDBStorage.counters s !! k = Some c -> 1 <= Counter.count c.
Proof.
  induction 1 as [now | now now' s _ IH Hle | now key expiry elastic s _ IH
                 | now key limit expiry s _ IH | now key s _ IH | now s _ IH
                 | now key s _ IH | now key s _ IH]; intros k c.
  - cbn. rewrite lookup_empty. discriminate.
  - apply IH.
  - cbn [snd MongoDBStorage.incr MongoDBStorage.counters]. rewrite lookup_insert.
    destruct (decide (key = k)) as [->|]; [|apply IH].
    intros [= <-]. unfold MongoDBStorage.incr_pipeline.
    destruct (MongoDBStorage.counters s !! k) as [c0|] eqn:Hc0; cbn; [|lia].
    specialize (IH k c0 Hc0). destruct (Counter.expireAt c0 <? now); lia.
  - rewrite acquire_entry_counters. apply IH.
  - cbn [snd MongoDBStorage.clear MongoDBStorage.counters].
    intros [_ Hc]%lookup_delete_Some. exact (IH k c Hc).
  - cbn. rewrite lookup_empty. discriminate.
  - unfold MongoDBStorage.ttl_delete_counter.
    destruct (MongoDBStorage.counters s !! key) as [c0|]; [|apply IH].
    destruct (Counter.expireAt c0 <=? now); [|apply IH].
    cbn [MongoDBStorage.counters]. intros [_ Hc]%lookup_delete_Some. exact (IH k c Hc).
  - unfold MongoDBStorage.ttl_delete_window.
    destruct (MongoDBStorage.windows s !! key) as [w|]; [|apply IH].
    destruct (Window.expireAt w <=? now); apply IH.
Qed.

(** X15. [incr] never stores a count below 1, so in every storage the
    program can be in, [get] returns 0 exactly for the keys that have no
    record with [expireAt >= now], and the remaining capacity reported by
    the fixed window [get_window_stats] lies between 0 and the amount. *)
Theorem get_zero_means_no_live_counter now item identifiers (s : MongoDBStorage.t) :
  reachable now s ->
  0 <= RateLimitItem.amount item ->
  (forall key,
     fst (MongoDBStorage.get now key s) = 0 <->
     MongoDBStorage.find_unexpired now key s = None) /\
  0 <= snd (fst (FixedWindowRateLimiter.get_window_stats now item identifiers s))
    <= RateLimitItem.amount item.
Proof.
  intros Hreach Ha.
  pose proof (reachable_counts_positive now s Hreach) as Hpos.
  assert (Hget : forall key,
            (MongoDBStorage.find_unexpired now key s = None /\
             fst (MongoDBStorage.get now key s) = 0) \/
            (exists c, MongoDBStorage.find_unexpired now key s = Some c /\
                       1 <= fst (MongoDBStorage.get now key s))).
  { intros key. unfold MongoDBStorage.get, MongoDBStorage.find_unexpired. cbn [fst].
    destruct (MongoDBStorage.counters s !! key) as [c|] eqn:Hc; [|left; split; reflexivity].
    destruct (now <=? Counter.expireAt c); [|left; split; reflexivity].
    right. exists c. split; [reflexivity|]. specialize (Hpos key c Hc).
    destruct (Z.eqb_spec (Counter.count c) 0); lia. }
  split.
  - intros key. destruct (Hget key) as [[Hnone Hzero] | (c & Hsome & Hone)].
    + split; intros _; assumption.
    + rewrite Hsome. split; [lia | discriminate].
  - rewrite fixed_stats_unfold. cbn [fst snd].
    destruct (Hget (RateLimitItem.key_for item identifiers))
      as [[_ Hzero] | (c & _ & Hone)]; lia.
Qed.

Lemma get_zero_means_no_live_counter_witness :
  0 <= snd (fst (FixedWindowRateLimiter.get_window_stats (Sample.T 1)
                   Sample.two_per_minute [] Sample.hit_once)) <= 2.
Proof.
  pose proof (get_zero_means_no_live_counter (Sample.T 1) Sample.two_per_minute []
                Sample.hit_once) as H.
  destruct H as [_ Hrem]; [| vm_compute; discriminate | exact Hrem].
  apply (reach_wait (Sample.T 0)); [|vm_compute; discriminate].
  apply (reach_incr (Sample.T 0) "LIMITER" 60 true), reach_empty.
Defined.

(** ** Lazy expiry against the TTL index *)

(** X16. A counter whose [expireAt] lies before the clock reading of a call
    counts for nothing, stored or not: whether the TTL index has already
    deleted it does not change what [get] returns, what [incr] returns, or
    the record [incr] leaves behind. *)
Theorem ttl_deletion_is_not_observed t now key k expiry elastic (s : MongoDBStorage.t) :
  t < now ->
  let evicted := MongoDBStorage.ttl_delete_counter t key s in
  fst (MongoDBStorage.get now k evicted) = fst (MongoDBStorage.get now k s) /\
  fst (MongoDBStorage.incr now k expiry elastic evicted) =
    fst (MongoDBStorage.incr now k expiry elastic s) /\
  MongoDBStorage.counters (snd (MongoDBStorage.incr now k expiry elastic evicted)) !! k =
    MongoDBStorage.counters (snd (MongoDBStorage.incr now k expiry elastic s)) !! k.
Proof.
  intros Ht evicted.
  rewrite !incr_lookup, !incr_result.
  subst evicted. unfold MongoDBStorage.ttl_delete_counter.
  destruct (MongoDBStorage.counters s !! key) as [c|] eqn:Hc; [|repeat split; reflexivity].
  destruct (Z.leb_spec (Counter.expireAt c) t) as [Hexp|]; [|repeat split; reflexivity].
  destruct (decide (k = key)) as [->|Hne].
  - assert (Hgone : MongoDBStorage.counters
                      (MongoDBStorage.mk (delete key (MongoDBStorage.counters s))
                                         (MongoDBStorage.windows s)) !! key = None)
      by (cbn; apply lookup_delete_eq).
    rewrite Hgone, Hc.
    rewrite (get_absent _ _ _ Hgone), (get_expired _ _ _ _ Hc) by lia.
    rewrite (incr_pipeline_fresh _ _ _ (Some c))
      by (right; exists c; split; [reflexivity | lia]).
    repeat split; reflexivity.
  - assert (Hsame : MongoDBStorage.counters
                      (MongoDBStorage.mk (delete key (MongoDBStorage.counters s))
                                         (MongoDBStorage.windows s)) !! k =
                    MongoDBStorage.counters s !! k)
      by (cbn; apply lookup_delete_ne; congruence).
    rewrite Hsame.
    destruct (get_depends_on_counter now k _ s Hsame) as (Hget & _).
    rewrite Hget. repeat split; reflexivity.
Qed.

Lemma ttl_deletion_is_not_observed_witness :
  fst (MongoDBStorage.incr (Sample.T 5) "k" 2 false
         (MongoDBStorage.ttl_delete_counter (Sample.T 3) "k" Sample.exhausted)) =
  fst (MongoDBStorage.incr (Sample.T 5) "k" 2 false Sample.exhausted).
Proof.
  pose proof (ttl_deletion_is_not_observed (Sample.T 3) (Sample.T 5) "k" "k" 2 false
                Sample.exhausted) as H.
  cbv zeta in H. destruct H as (_ & Hincr & _); [reflexivity | exact Hincr].
Defined.
